(** * BrewGI: a shallow embedding of [BrewGI.py] and its specification

    [BrewGI.py] is a PyQt5 front end for Homebrew.  Everything it knows about
    packages comes from running the [brew] binary; the program itself lists,
    reconciles and batches package names.  This development embeds the
    functions of the file that carry that logic:

    - the adapter functions [get_brew_apps], [search_brew_apps],
      [uninstall_brew_app] and the worker [BrewInstaller.run];
    - the window methods [refresh_app_list], [export_installed_json],
      [import_and_install_json] (with its nested [do_install] and
      [on_finished]), [search_apps] and [uninstall_selected].

    Conventions of the embedding:

    - a Python [str] is a Rocq [string] whose characters are read as the code
      points 0..255; comparison, [strip], [splitlines] and [replace] are the
      Python operations restricted to that range;
    - the outside world (what each [brew] invocation does, what the files
      hold) is a component of [World]; Python code runs in the monad [Py],
      which threads the world and may raise an exception;
    - what the user does in a dialog is an argument of the method that opens
      the dialog;
    - [Raise e] as the result of a window method says that [e] was not
      caught in the main thread: it left the method, or a slot that ran
      while the dialog of the method was open ([do_install],
      [on_finished]).  Either way [e] reaches [sys.excepthook]; the hook of
      the file ([except_hook]: a message box, then [sys.exit(1)]) is not
      part of the embedding;
    - a worker thread is run to its end at the moment it is started, and
      the slot connected to its signal right after it.  An exception that
      leaves the thread's [run] does not come back to the code that
      started the thread; it is recorded as the event [WorkerRaised]. *)

From Stdlib Require Import ZArith Ascii.
From Stdlib Require String.
From stdpp Require Import base decidable option list sorting gmap sets strings.

Local Open Scope Z_scope.

(** ** Python strings *)

Module Str.

(** The newline character, written ["\n"] in the source. *)
Definition nl : string := String (ascii_of_nat 10) "".

Definition code (c : ascii) : nat := nat_of_ascii c.

(** [c.isspace()] for a code point below 256: TAB..CR, FS..US, space,
    NEL (0x85) and NBSP (0xA0). *)
Definition isspace (c : ascii) : bool :=
  let n := code c in
  ((9 <=? n)%nat && (n <=? 13)%nat) || ((28 <=? n)%nat && (n <=? 32)%nat)
  || (n =? 133)%nat || (n =? 160)%nat.

Fixpoint lstrip (s : string) : string :=
  match s with
  | "" => ""
  | String c s' => if isspace c then lstrip s' else s
  end.

Fixpoint rstrip (s : string) : string :=
  match s with
  | "" => ""
  | String c s' =>
      match rstrip s' with
      | "" => if isspace c then "" else String c ""
      | r => String c r
      end
  end.

(** [s.strip()] *)
Definition strip (s : string) : string := rstrip (lstrip s).

(** Every character is white space; the first one is; the last one is. *)
Fixpoint all_space (s : string) : bool :=
  match s with
  | "" => true
  | String c s' => isspace c && all_space s'
  end.

Definition starts_space (s : string) : bool :=
  match s with
  | "" => false
  | String c _ => isspace c
  end.

Fixpoint ends_space (s : string) : bool :=
  match s with
  | "" => false
  | String c "" => isspace c
  | String _ s' => ends_space s'
  end.

(** The line boundaries of [str.splitlines] below 256: LF, VT, FF, CR,
    FS, GS, RS and NEL; CR LF counts as one boundary. *)
Definition is_linebreak (c : ascii) : bool :=
  let n := code c in
  ((10 <=? n)%nat && (n <=? 13)%nat) || ((28 <=? n)%nat && (n <=? 30)%nat)
  || (n =? 133)%nat.

Definition snoc (s : string) (c : ascii) : string := s +:+ String c "".

(** [splitlines_from line s]: [line] is the part of the current line
    already read.  A last line is produced only when it is not empty. *)
Fixpoint splitlines_from (line s : string) : list string :=
  match s with
  | "" => match line with "" => [] | _ => [line] end
  | String c s' =>
      if is_linebreak c then
        match s' with
        | String c' s'' =>
            if ((code c =? 13)%nat && (code c' =? 10)%nat)%bool
            then line :: splitlines_from "" s''
            else line :: splitlines_from "" s'
        | "" => line :: splitlines_from "" s'
        end
      else splitlines_from (snoc line c) s'
  end.

(** [s.splitlines()] *)
Definition splitlines (s : string) : list string := splitlines_from "" s.

(** [replace_from old new skip s]: scan [s] from the left; [skip] counts
    the characters of an occurrence of [old] still to be dropped. *)
Fixpoint replace_from (old new : string) (skip : nat) (s : string) : string :=
  match s with
  | "" => ""
  | String c s' =>
      match skip with
      | S k => replace_from old new k s'
      | O =>
          if String.prefix old s
          then new +:+ replace_from old new (String.length old - 1) s'
          else String c (replace_from old new 0 s')
      end
  end.

(** [s.replace("", new)] puts [new] before every character and at the end. *)
Fixpoint intersperse (new s : string) : string :=
  match s with
  | "" => new
  | String c s' => new +:+ String c (intersperse new s')
  end.

(** [s.replace(old, new)]: every non-overlapping occurrence of [old],
    leftmost first, becomes [new]. *)
Definition replace (old new s : string) : string :=
  match old with
  | "" => intersperse new s
  | _ => replace_from old new 0 s
  end.

(** [sub in s] *)
Fixpoint contains (sub s : string) : bool :=
  String.prefix sub s ||
  match s with
  | "" => false
  | String _ s' => contains sub s'
  end.

(** [sep.join(l)] *)
Definition join (sep : string) (l : list string) : string := String.concat sep l.

(** [s1 <= s2] on [str]: lexicographic on code points. *)
Definition le (s1 s2 : string) : Prop := String.leb s1 s2 = true.

#[global] Instance le_dec s1 s2 : Decision (le s1 s2).
Proof. unfold le. apply _. Defined.

(** [s1 < s2] *)
Definition lt (s1 s2 : string) : Prop := String.ltb s1 s2 = true.

End Str.

(** ** Exceptions, the world, and the monad of Python code *)

(** The exception classes the program meets.  [CalledProcessError] and
    [OSError] come from [subprocess] and [open]; [UnicodeDecodeError] from
    reading the output of a process as text; [JSONDecodeError] from
    [json.load]; [AttributeError] and [TypeError] are raised by the
    interpreter. *)
Inductive exn : Type :=
| CalledProcessError (returncode : Z) (cmd : list string)
| OSError (msg : string)
| UnicodeDecodeError (msg : string)
| JSONDecodeError (msg : string)
| AttributeError
| TypeError.

(** [except subprocess.CalledProcessError] *)
Definition is_CalledProcessError (e : exn) : bool :=
  match e with CalledProcessError _ _ => true | _ => false end.

(** [except Exception]: every class above derives from [Exception]. *)
Definition is_Exception (e : exn) : bool := true.

(** [str(e)].  The embedding carries the message of the exceptions that
    come from the environment.  They are the only ones a run applies [str]
    to (see [subprocess_run_raises]); for the other classes the text is
    not modelled and the empty string stands for it.  The message box of
    the import keeps the exception itself ([Critical]). *)
Definition str_exn (e : exn) : string :=
  match e with
  | OSError msg => msg
  | UnicodeDecodeError msg => msg
  | JSONDecodeError msg => msg
  | _ => ""
  end.

(** What one attempt to run an external command does.

    - [Exited]: the process runs and exits with a return code, and what it
      wrote to its two streams decodes as text ([text=True]) to [stdout]
      and [stderr].
    - [Undecodable]: the process runs and exits with a return code, but
      one of its streams holds bytes that do not decode; [msg] is the
      text of the [UnicodeDecodeError] that reading it raises.  With
      [stdout = Some out] standard output decodes to [out] and the bytes
      are those of standard error; with [None] they are those of standard
      output.
    - [LaunchFailed]: the process cannot be started at all, and the launch
      raises an [OSError] (for instance [FileNotFoundError] when the
      binary is not at that path). *)
Inductive proc_outcome : Type :=
| Exited (returncode : Z) (stdout stderr : string)
| Undecodable (returncode : Z) (stdout : option string) (msg : string)
| LaunchFailed (msg : string).

(** A JSON value as [json.load] returns it.  A number keeps its lexeme: the
    program never computes with one.  An object keeps its members in file
    order; Python builds the [dict] from them, a later member replacing an
    earlier one with the same key. *)
#[warnings="-register-all"]
Inductive json : Type :=
| JNull
| JBool (b : bool)
| JNumber (lexeme : string)
| JString (s : string)
| JArray (elems : list json)
| JObject (members : list (string * json)).

(** What a path holds, as far as [open(path, "r")] and [json.load] can
    tell: the text of a JSON value; a text that is not JSON (the empty file
    is one), [decode_error] being the message of the [JSONDecodeError] it
    gives; or nothing that can be opened, [open] raising an [OSError]. *)
Inductive file_content : Type :=
| JsonDoc (v : json)
| NotJson (decode_error : string)
| Unreadable (msg : string).

(** Qt values used by the program. *)
Module Qt.
Definition ItemIsSelectable : Z := 1.
Definition ItemIsDragEnabled : Z := 4.
Definition ItemIsUserCheckable : Z := 16.
Definition ItemIsEnabled : Z := 32.
Definition Unchecked : Z := 0.
Definition Checked : Z := 2.
End Qt.

Record QListWidgetItem : Type := mkItem {
  text : string;
  flags : Z;
  checkState : Z
}.

(** [QListWidgetItem(label)]: a new item is selectable, drag enabled,
    user checkable and enabled, and unchecked. *)
Definition new_QListWidgetItem (label : string) : QListWidgetItem :=
  {| text := label;
     flags := Z.lor (Z.lor (Z.lor Qt.ItemIsSelectable Qt.ItemIsDragEnabled)
                           Qt.ItemIsUserCheckable) Qt.ItemIsEnabled;
     checkState := Qt.Unchecked |}.

Definition setFlags (f : Z) (item : QListWidgetItem) : QListWidgetItem :=
  {| text := text item; flags := f; checkState := checkState item |}.

Definition setCheckState (c : Z) (item : QListWidgetItem) : QListWidgetItem :=
  {| text := text item; flags := flags item; checkState := c |}.

(** What the program does that can be seen from outside: a process
    launch; a message box ([Critical] keeps the text that precedes
    [str(e)], and [e]); the import dialog opened on its items, retitled,
    closed; the signal of the worker; an exception that left the [run] of
    the worker and ended its thread; a file written. *)
Inductive event : Type :=
| Spawn (argv : list string)
| Information (title body : string)
| Warning (title body : string)
| Critical (title body : string) (e : exn)
| DialogExec (title : string) (items : list QListWidgetItem)
| DialogTitle (title : string)
| DialogClose
| Finished (successes failures : list string)
| WorkerRaised (e : exn)
| FileWritten (path : string) (data : json).

(** The main window, as far as the methods below read or write it:
    [self.list_widget] and [self.installer] (the apps of the last worker
    started, if any). *)
Record BrewAppStore : Type := mkStore {
  list_widget : list QListWidgetItem;
  installer : option (list string)
}.

(** The world: [brew n argv] is what the [n]-th process launch of the run
    does when it is given [argv]; [spawned] counts the launches so far;
    [files] is what each path holds; [write_error p] is the message of the
    [OSError] that [open(p, "w")] raises, [None] when the path can be
    opened for writing; [trace] is the history of events; [self] is the
    window object the methods mutate. *)
Record World : Type := mkWorld {
  brew : nat → list string → proc_outcome;
  spawned : nat;
  files : string → file_content;
  write_error : string → option string;
  trace : list event;
  self : BrewAppStore
}.

Inductive result (A : Type) : Type :=
| Ok (a : A)
| Raise (e : exn).
Arguments Ok {A} a.
Arguments Raise {A} e.

Definition Py (A : Type) : Type := World → result A * World.

#[global] Instance Py_ret : MRet Py := λ A a w, (Ok a, w).

#[global] Instance Py_bind : MBind Py := λ A B k m w,
  match m w with
  | (Ok a, w') => k a w'
  | (Raise e, w') => (Raise e, w')
  end.

Definition raise {A} (e : exn) : Py A := λ w, (Raise e, w).

(** [try: body  except <class>: handler]; an exception outside the class
    goes on to the caller. *)
Definition try_except {A} (body : Py A) (class : exn → bool) (handler : exn → Py A) : Py A :=
  λ w, match body w with
       | (Ok a, w') => (Ok a, w')
       | (Raise e, w') => if class e then handler e w' else (Raise e, w')
       end.

Definition emit (ev : event) : Py unit :=
  λ w, (Ok (), {| brew := brew w; spawned := spawned w; files := files w;
                  write_error := write_error w;
                  trace := trace w ++ [ev]; self := self w |}).

Definition get_self : Py BrewAppStore := λ w, (Ok (self w), w).

Definition put_self (st : BrewAppStore) : Py unit :=
  λ w, (Ok (), {| brew := brew w; spawned := spawned w; files := files w;
                  write_error := write_error w;
                  trace := trace w; self := st |}).

(** ** [subprocess] *)

(** The world after one more process launch. *)
Definition launched (argv : list string) (w : World) : World :=
  {| brew := brew w; spawned := S (spawned w); files := files w;
     write_error := write_error w;
     trace := trace w ++ [Spawn argv]; self := self w |}.

(** A call of [subprocess]: one process launch, counted and recorded
    whatever comes of it; [reads] is what the call makes of the outcome. *)
Definition subprocess_call {A} (argv : list string) (reads : proc_outcome → result A) : Py A :=
  λ w, (reads (brew w (spawned w) argv), launched argv w).

(** [subprocess.check_output(argv, text=True)]: standard output is
    captured and read as text, then the return code is looked at.
    Standard error is not captured. *)
Definition check_output (argv : list string) : Py string :=
  subprocess_call argv (λ outcome,
    match outcome with
    | LaunchFailed msg => Raise (OSError msg)
    | Undecodable _ None msg => Raise (UnicodeDecodeError msg)
    | Exited rc out _ | Undecodable rc (Some out) _ =>
        if rc =? 0 then Ok out else Raise (CalledProcessError rc argv)
    end).

(** [subprocess.check_call(argv)]: nothing is captured, so nothing is
    decoded. *)
Definition check_call (argv : list string) : Py Z :=
  subprocess_call argv (λ outcome,
    match outcome with
    | LaunchFailed msg => Raise (OSError msg)
    | Exited rc _ _ | Undecodable rc _ _ =>
        if rc =? 0 then Ok 0 else Raise (CalledProcessError rc argv)
    end).

Record CompletedProcess : Type := mkCompleted {
  returncode : Z;
  stdout : string;
  stderr : string
}.

(** [subprocess.run(argv, text=True, stdout=PIPE, stderr=PIPE)]: both
    streams are captured and read as text; without [check=True] a non-zero
    return code is not an exception. *)
Definition subprocess_run (argv : list string) : Py CompletedProcess :=
  subprocess_call argv (λ outcome,
    match outcome with
    | LaunchFailed msg => Raise (OSError msg)
    | Undecodable _ _ msg => Raise (UnicodeDecodeError msg)
    | Exited rc out err => Ok {| returncode := rc; stdout := out; stderr := err |}
    end).

(** ** The adapter functions *)

Definition BREW_PATH : string := "/opt/homebrew/bin/brew".

Definition get_brew_apps : Py (list string * list string) :=
  cask_apps ← try_except
      (out ← check_output [BREW_PATH; "list"; "--cask"]; mret (Str.splitlines out))
      is_CalledProcessError (λ _, mret []);
  formula_apps ← try_except
      (out ← check_output [BREW_PATH; "list"]; mret (Str.splitlines out))
      is_CalledProcessError (λ _, mret []);
  mret (cask_apps, formula_apps).

Definition search_brew_apps (query : string) : Py (list string) :=
  try_except
    (out ← check_output [BREW_PATH; "search"; query];
     let result := Str.splitlines out in
     mret result)
    is_CalledProcessError (λ _, mret []).

Definition uninstall_brew_app (app : string) : Py (bool * string) :=
  try_except
    (result ← subprocess_run [BREW_PATH; "uninstall"; "--force"; app];
     if returncode result =? 0 then mret (true, "")
     else mret (false, Str.strip (stderr result)))
    is_Exception (λ e, mret (false, str_exn e)).

(** The body of the loop of [BrewInstaller.run]: one [app], and the two
    lists it appends to. *)
Definition install_step (app : string) (successes failures : list string)
  : Py (list string * list string) :=
  try_except
    (_ ← check_call ["brew"; "install"; app];
     mret (successes ++ [app], failures))
    is_CalledProcessError
    (λ _, mret (successes, failures ++ [app])).

(** The loop [for app in self.apps]. *)
Fixpoint BrewInstaller_run_loop (apps successes failures : list string)
  : Py (list string * list string) :=
  match apps with
  | [] => mret (successes, failures)
  | app :: rest =>
      '(successes', failures') ← install_step app successes failures;
      BrewInstaller_run_loop rest successes' failures'
  end.

(** [BrewInstaller(apps).run()]; the value is what [finished] carries. *)
Definition BrewInstaller_run (apps : list string) : Py (list string * list string) :=
  '(successes, failures) ← BrewInstaller_run_loop apps [] [];
  emit (Finished successes failures);;
  mret (successes, failures).

(** ** Sets of names and [sorted] *)

(** [sorted(s)] for a set of [str]: its elements in ascending order. *)
Definition sorted (s : gset string) : list string :=
  merge_sort Str.le (elements s).

(** ** The main window *)

(** An item of the main list: the name, checkable, unchecked. *)
Definition installed_item (app : string) : QListWidgetItem :=
  let item := new_QListWidgetItem app in
  let item := setFlags (Z.lor (flags item) Qt.ItemIsUserCheckable) item in
  setCheckState Qt.Unchecked item.

Definition set_list_widget (items : list QListWidgetItem) : Py unit :=
  st ← get_self;
  put_self {| list_widget := items; installer := installer st |}.

Definition set_installer (apps : list string) : Py unit :=
  st ← get_self;
  put_self {| list_widget := list_widget st; installer := Some apps |}.

Definition refresh_app_list : Py unit :=
  set_list_widget [];;
  '(cask_apps, formula_apps) ← get_brew_apps;
  let all_apps := sorted (list_to_set (cask_apps ++ formula_apps)) in
  set_list_widget (installed_item <$> all_apps).

(** ** Export *)

(** [with open(path, "w") as f: json.dump(data, f, indent=2)].  When the
    path cannot be opened for writing, [open] raises an [OSError] and
    nothing is written.  Otherwise the path holds the document [data]
    afterwards: [data] is a [dict] of lists of [str], which [json.dump]
    always serialises, and past [open] the write is taken to succeed. *)
Definition json_dump (path : string) (data : json) : Py unit :=
  λ w, match write_error w path with
       | Some msg => (Raise (OSError msg), w)
       | None =>
           (Ok (), {| brew := brew w; spawned := spawned w;
                      files := λ p, if decide (p = path) then JsonDoc data else files w p;
                      write_error := write_error w;
                      trace := trace w ++ [FileWritten path data]; self := self w |})
       end.

(** The [dict] that is exported. *)
Definition export_data (cask_apps formula_apps : list string) : json :=
  JObject [("cask", JArray (JString <$> cask_apps));
           ("formula", JArray (JString <$> formula_apps))].

(** [export_installed_json]; [path] is what the save dialog returns, the
    empty string when the user cancels it. *)
Definition export_installed_json (path : string) : Py unit :=
  '(cask_apps, formula_apps) ← get_brew_apps;
  let data := export_data cask_apps formula_apps in
  match path with
  | "" => mret ()
  | _ =>
      json_dump path data;;
      emit (Information "Export" "Installed apps exported to JSON.")
  end.

(** ** Import *)

(** [with open(path, "r") as f: data = json.load(f)] *)
Definition json_load (path : string) : Py json :=
  λ w, match files w path with
       | JsonDoc v => (Ok v, w)
       | NotJson msg => (Raise (JSONDecodeError msg), w)
       | Unreadable msg => (Raise (OSError msg), w)
       end.

(** [dict(members).get(key, default)]: the last member with that key. *)
Fixpoint dict_get (key : string) (members : list (string * json)) (default : json) : json :=
  match members with
  | [] => default
  | (k, v) :: rest => dict_get key rest (if decide (k = key) then v else default)
  end.

(** [data.get(key, default)]: only a [dict] has the method. *)
Definition data_get (data : json) (key : string) (default : json) : Py json :=
  match data with
  | JObject members => mret (dict_get key members default)
  | _ => raise AttributeError
  end.

(** A Python [set] built from JSON data.  The program goes on only with
    sets of [str]; of a set that holds anything else (a number, a boolean,
    [None]) the embedding keeps that fact alone, see [import_app_list]. *)
Inductive pyset : Type :=
| StrSet (s : gset string)
| MixedSet.

(** [a | b] *)
Definition pyset_union (a b : pyset) : pyset :=
  match a, b with
  | StrSet x, StrSet y => StrSet (x ∪ y)
  | _, _ => MixedSet
  end.

(** [set(elems)] for a list: a list or a dict among the elements is not
    hashable. *)
Fixpoint set_of_list (elems : list json) : result pyset :=
  match elems with
  | [] => Ok (StrSet ∅)
  | x :: rest =>
      match x with
      | JArray _ | JObject _ => Raise TypeError
      | JString s =>
          match set_of_list rest with
          | Ok (StrSet r) => Ok (StrSet ({[ s ]} ∪ r))
          | other => other
          end
      | JNull | JBool _ | JNumber _ =>
          match set_of_list rest with
          | Ok _ => Ok MixedSet
          | Raise e => Raise e
          end
      end
  end.

(** The characters of a [str], each a [str] of length one. *)
Fixpoint chars (s : string) : list string :=
  match s with
  | "" => []
  | String c s' => String c "" :: chars s'
  end.

(** [set(v)]: a list gives its elements, a [str] its characters, a [dict]
    its keys; the other values are not iterable. *)
Definition py_set (v : json) : Py pyset :=
  match v with
  | JArray elems => λ w, (set_of_list elems, w)
  | JString s => mret (StrSet (list_to_set (chars s)))
  | JObject members => mret (StrSet (list_to_set (members.*1)))
  | JNull | JBool _ | JNumber _ => raise TypeError
  end.

(** The body of the [try] of [import_and_install_json]. *)
Definition load_import (path : string) : Py (pyset * pyset) :=
  data ← json_load path;
  cask ← data_get data "cask" (JArray []);
  import_casks ← py_set cask;
  formula ← data_get data "formula" (JArray []);
  import_formulae ← py_set formula;
  mret (import_casks, import_formulae).

Definition already_label : string := " (already installed)".

(** The body of the loop [for app in sorted(all_imported)]. *)
Definition import_item (already_installed : gset string) (app : string) : QListWidgetItem :=
  let already := bool_decide (app ∈ already_installed) in
  let label := app +:+ (if already then already_label else "") in
  let item := new_QListWidgetItem label in
  let item := setFlags (Z.lor (flags item) Qt.ItemIsUserCheckable) item in
  if already then
    let item := setCheckState Qt.Unchecked item in
    setFlags (Z.land (flags item) (Z.lnot Qt.ItemIsEnabled)) item
  else
    setCheckState Qt.Checked item.

(** The loop.  With an element that is not a [str] in the set, [sorted]
    or the concatenation [app + "..."] raises a [TypeError]. *)
Definition import_app_list (all_imported : pyset) (already_installed : gset string)
  : Py (list QListWidgetItem) :=
  match all_imported with
  | StrSet s => mret (import_item already_installed <$> sorted s)
  | MixedSet => raise TypeError
  end.

(** [item.flags() & Qt.ItemIsEnabled], as a truth value. *)
Definition is_enabled (item : QListWidgetItem) : bool :=
  negb (Z.land (flags item) Qt.ItemIsEnabled =? 0).

Definition is_checkable (item : QListWidgetItem) : bool :=
  negb (Z.land (flags item) Qt.ItemIsUserCheckable =? 0).

(** [item.checkState() == Qt.Checked] *)
Definition is_checked (item : QListWidgetItem) : bool :=
  checkState item =? Qt.Checked.

(** The list [selected] of [do_install]. *)
Definition selected_names (app_list : list QListWidgetItem) : list string :=
  (λ item, Str.replace already_label "" (text item))
    <$> List.filter (λ item, is_enabled item && is_checked item) app_list.

(** [on_finished], the slot of the worker's signal. *)
Definition on_finished (successes failures : list string) : Py unit :=
  let msg := "" in
  let msg := match successes with
             | [] => msg
             | _ => msg +:+ "Installed: " +:+ Str.join ", " successes +:+ Str.nl
             end in
  let msg := match failures with
             | [] => msg
             | _ => msg +:+ "Failed: " +:+ Str.join ", " failures
             end in
  emit (Information "Install" (match msg with "" => "Done." | _ => msg end));;
  emit DialogClose;;
  refresh_app_list.

(** [self.installer.finished.connect(on_finished); self.installer.start()]
    for the worker of [apps].  [start] returns at once and [run] goes on in
    the worker thread; the embedding runs it to its end here.  When [run]
    emits [finished], the slot [on_finished] is called in the main thread.
    When an exception leaves [run] it ends the thread and is not seen by
    the caller of [start]: no signal is emitted and the slot is never
    called.  What [sys.excepthook] does with the exception in that thread
    is not part of the embedding. *)
Definition installer_start (apps : list string) : Py unit :=
  λ w, match BrewInstaller_run apps w with
       | (Ok (successes, failures), w') => on_finished successes failures w'
       | (Raise e, w') => emit (WorkerRaised e) w'
       end.

(** [do_install]; the value tells whether the dialog takes no further
    click: once a worker is started the two buttons are disabled, and
    [on_finished] closes the dialog. *)
Definition do_install (app_list : list QListWidgetItem) : Py bool :=
  let selected := selected_names app_list in
  match selected with
  | [] => emit (Information "Install" "No apps selected.");; mret false
  | _ =>
      emit (DialogTitle "Installing...");;
      set_installer selected;;
      installer_start selected;;
      mret true
  end.

(** What the user does in the import dialog: click the check box of the
    [i]-th item, press "Install Selected", press "Cancel". *)
Inductive dialog_action : Type :=
| Toggle (i : nat)
| ClickInstall
| ClickCancel.

(** A click on a check box changes the state of an item that is enabled
    and user checkable, and of no other. *)
Definition toggle (item : QListWidgetItem) : QListWidgetItem :=
  if is_enabled item && is_checkable item
  then setCheckState (if is_checked item then Qt.Unchecked else Qt.Checked) item
  else item.

(** [dlg.exec_()]: the actions of the user, in order, until the dialog is
    closed or its buttons are disabled; when they run out the user closes
    the window. *)
Fixpoint dlg_exec (app_list : list QListWidgetItem) (actions : list dialog_action) : Py unit :=
  match actions with
  | [] => mret ()
  | Toggle i :: rest => dlg_exec (alter toggle i app_list) rest
  | ClickCancel :: _ => emit DialogClose
  | ClickInstall :: rest =>
      closed ← do_install app_list;
      if closed : bool then mret () else dlg_exec app_list rest
  end.

(** [import_and_install_json]; [path] is what the open dialog returns, the
    empty string when the user cancels it. *)
Definition import_and_install_json (path : string) (actions : list dialog_action) : Py unit :=
  match path with
  | "" => mret ()
  | _ =>
      loaded ← try_except
        (sets ← load_import path; mret (Some sets))
        is_Exception
        (λ e, emit (Critical "Import Error" ("Failed to read JSON:" +:+ Str.nl) e);;
              mret None);
      match loaded with
      | None => mret ()
      | Some (import_casks, import_formulae) =>
          '(cask_apps, formula_apps) ← get_brew_apps;
          let installed_casks : gset string := list_to_set cask_apps in
          let installed_formulae : gset string := list_to_set formula_apps in
          let all_imported := pyset_union import_casks import_formulae in
          let already_installed := installed_casks ∪ installed_formulae in
          app_list ← import_app_list all_imported already_installed;
          emit (DialogExec "Confirm Apps to Install" app_list);;
          dlg_exec app_list actions
      end
  end.

(** ** Uninstall *)

(** [len(t)] for a pair, and its truth value, which is that of
    [len(t) != 0]. *)
Definition pair_len {A B} (t : A * B) : nat := 2.

Definition pair_truth {A B} (t : A * B) : bool := negb (pair_len t =? 0)%nat.

(** The loop [for app in to_uninstall] with its list [errors]. *)
Fixpoint uninstall_loop (to_uninstall errors : list string) : Py (list string) :=
  match to_uninstall with
  | [] => mret errors
  | app :: rest =>
      errors' ← try_except
        (success ← uninstall_brew_app app;
         if negb (pair_truth success) then mret (errors ++ [app]) else mret errors)
        is_Exception
        (λ e, mret (errors ++ [app +:+ " (error: " +:+ str_exn e +:+ ")"]));
      uninstall_loop rest errors'
  end.

Definition uninstall_selected : Py unit :=
  st ← get_self;
  let to_uninstall := text <$> List.filter is_checked (list_widget st) in
  match to_uninstall with
  | [] => emit (Information "Uninstall" "No apps selected.")
  | _ =>
      errors ← uninstall_loop to_uninstall [];
      match errors with
      | [] => emit (Information "Uninstall" "Selected apps uninstalled.")
      | _ =>
          emit (Warning "Uninstall"
                  ("Failed to uninstall:" +:+ Str.nl +:+ Str.join Str.nl errors +:+
                   Str.nl +:+ Str.nl +:+
                   "This may be due to permissions or a cancelled password prompt."))
      end;;
      refresh_app_list
  end.

(** ** Names for statements, and some worlds *)

(** Unfolding of the monad, for goals that run a program on a world. *)
Ltac run_py :=
  repeat (unfold mbind, mret, Py_bind, Py_ret, try_except, raise,
            check_output, check_call, subprocess_run, subprocess_call; simpl).

Definition cask_argv : list string := [BREW_PATH; "list"; "--cask"].
Definition formula_argv : list string := [BREW_PATH; "list"].
Definition search_argv (query : string) : list string := [BREW_PATH; "search"; query].
Definition uninstall_argv (app : string) : list string :=
  [BREW_PATH; "uninstall"; "--force"; app].
Definition install_argv (app : string) : list string := ["brew"; "install"; app].

(** What a listing gives for one outcome of the process that ran. *)
Definition lines_of_exit (rc : Z) (out : string) : list string :=
  if rc =? 0 then Str.splitlines out else [].

(** What a listing or a search makes of the outcome of its launch: lines,
    or the exception that goes on to the caller. *)
Definition lines_of (outcome : proc_outcome) : result (list string) :=
  match outcome with
  | LaunchFailed msg => Raise (OSError msg)
  | Undecodable _ None msg => Raise (UnicodeDecodeError msg)
  | Exited rc out _ | Undecodable rc (Some out) _ => Ok (lines_of_exit rc out)
  end.

(** A world that has run nothing yet: [answers] is what the processes do;
    no file can be read, every path can be written, and the window list is
    empty. *)
Definition fresh_world (answers : nat → list string → proc_outcome) : World :=
  {| brew := answers; spawned := 0;
     files := λ _, Unreadable "No such file or directory";
     write_error := λ _, None;
     trace := [];
     self := {| list_widget := []; installer := None |} |}.

(** No process can be started (there is no [brew] at the path). *)
Definition world_no_brew : World :=
  fresh_world (λ _ _, LaunchFailed "No such file or directory").


(** The return code of a process that ran. *)
Definition exit_code (outcome : proc_outcome) : option Z :=
  match outcome with
  | Exited rc _ _ | Undecodable rc _ _ => Some rc
  | LaunchFailed _ => None
  end.

(** The return code and the standard output of a process that ran and
    whose standard output decodes as text. *)
Definition exit_with_stdout (outcome : proc_outcome) : option (Z * string) :=
  match outcome with
  | Exited rc out _ | Undecodable rc (Some out) _ => Some (rc, out)
  | Undecodable _ None _ | LaunchFailed _ => None
  end.

(** [brew list --cask] exits with code 1 after printing bytes that do not
    decode; any other command prints two names and exits with code 0. *)
Definition world_cask_undecodable : World :=
  fresh_world (λ _ argv,
    if decide (argv = cask_argv)
    then Undecodable 1 None
           "'utf-8' codec can't decode byte 0xff in position 0: invalid start byte"
    else Exited 0 ("git" +:+ Str.nl +:+ "wget" +:+ Str.nl) "").

(** Every command exits with code 0, with bytes on standard error that do
    not decode. *)
Definition world_uninstall_undecodable : World :=
  fresh_world (λ _ _,
    Undecodable 0 (Some "")
      "'utf-8' codec can't decode byte 0xff in position 0: invalid start byte").

(** Whether the [n]-th launch, given [brew install app], exits with code
    zero. *)
Definition install_ok (w : World) (n : nat) (app : string) : bool :=
  match exit_code (brew w n (install_argv app)) with
  | Some rc => rc =? 0
  | None => false
  end.

(** The batch split by the outcome of each launch, the first of which is
    the [n]-th of the run; both parts keep the order of the batch. *)
Fixpoint batch_result (w : World) (n : nat) (apps : list string) : list string * list string :=
  match apps with
  | [] => ([], [])
  | app :: rest =>
      let '(s, f) := batch_result w (S n) rest in
      if install_ok w n app then (app :: s, f) else (s, app :: f)
  end.

(** Every launch of the batch starts a process. *)
Definition batch_launches (w : World) (n : nat) (apps : list string) : Prop :=
  ∀ i app, apps !! i = Some app →
    ∃ rc, exit_code (brew w (n + i)%nat (install_argv app)) = Some rc.

(** The main list holds [wget], checked by the user; every command exits
    with code 1 and an error text. *)
Definition world_uninstall_fails : World :=
  {| brew := λ _ _, Exited 1 "" ("Error: No such keg: wget" +:+ Str.nl);
     spawned := 0;
     files := λ _, Unreadable "No such file or directory";
     write_error := λ _, None;
     trace := [];
     self := {| list_widget := [setCheckState Qt.Checked (installed_item "wget")];
                installer := None |} |}.

(** [brew install b] exits with code 1, every other command with code 0. *)
Definition world_b_fails : World :=
  fresh_world (λ _ argv,
    if decide (argv = install_argv "b") then Exited 1 "" "Error: b" else Exited 0 "" "").

(** The strings of the field [key] of an import document, by the rule of
    the format: the empty list when the object has no member [key],
    otherwise the array of strings that its last member [key] holds.  The
    other members are not looked at. *)
Definition field_strings (members : list (string * json)) (key : string)
    (l : list string) : Prop :=
  ((key ∉ members.*1) ∧ l = [])
  ∨ (∃ before after, members = before ++ (key, JArray (JString <$> l)) :: after
                     ∧ (key ∉ after.*1)).

(** Scenario 3: the import file holds an empty cask array and wget twice
    among the formulae. *)
Definition scenario3_members : list (string * json) :=
  [("cask", JArray []); ("formula", JArray [JString "wget"; JString "wget"])].

Definition world_scenario3 : World :=
  {| brew := λ _ _, Exited 0 "" ""; spawned := 0;
     files := λ _, JsonDoc (JObject scenario3_members);
     write_error := λ _, None;
     trace := [];
     self := {| list_widget := []; installer := None |} |}.

(** Scenario 4: the import file is empty. *)
Definition world_empty_file : World :=
  {| brew := λ _ _, Exited 0 "" ""; spawned := 0;
     files := λ _, NotJson "Expecting value: line 1 column 1 (char 0)";
     write_error := λ _, None;
     trace := [];
     self := {| list_widget := [installed_item "git"]; installer := None |} |}.

(** Firefox is the one cask and wget the one formula installed; every
    command exits with code 0. *)
Definition world_two_installed : World :=
  fresh_world (λ _ argv,
    if decide (argv = cask_argv) then Exited 0 ("firefox" +:+ Str.nl) ""
    else Exited 0 ("wget" +:+ Str.nl) "").

(** The same listings, and no path can be opened for writing. *)
Definition world_read_only : World :=
  {| brew := brew world_two_installed; spawned := 0;
     files := λ _, Unreadable "No such file or directory";
     write_error := λ _, Some "Read-only file system";
     trace := [];
     self := {| list_widget := []; installer := None |} |}.

(** The same world after the export to [apps.json]. *)
Definition world_exported : World :=
  snd (export_installed_json "apps.json" world_two_installed).

(** Nothing is installed, every command exits with code 0, and the import
    file asks for the one formula "foo (already installed)". *)
Definition world_odd_name : World :=
  {| brew := λ _ _, Exited 0 "" ""; spawned := 0;
     files := λ _, JsonDoc (JObject [("formula", JArray [JString "foo (already installed)"])]);
     write_error := λ _, None;
     trace := [];
     self := {| list_widget := []; installer := None |} |}.

(** The events of a dialog in which nothing can be selected. *)
Definition idle_event (ev : event) : Prop :=
  ev = Information "Install" "No apps selected." ∨ ev = DialogClose.

(** A program that leaves [self.installer] as it finds it, whether it
    returns or raises. *)
Definition keeps_installer {A} (m : Py A) : Prop :=
  ∀ w, installer (self (snd (m w))) = installer (self w).

(** ** Search *)

(** An item of the search dialog: the name, checkable, unchecked. *)
Definition search_item (app : string) : QListWidgetItem :=
  let item := new_QListWidgetItem app in
  let item := setFlags (Z.lor (flags item) Qt.ItemIsUserCheckable) item in
  setCheckState Qt.Unchecked item.

(** The list [to_install] of the [do_install] of the search dialog. *)
Definition to_install (result_list : list QListWidgetItem) : list string :=
  text <$> List.filter is_checked result_list.

(** The [do_install] of the search dialog; the value is that of the
    [do_install] of the import dialog.  Its [on_finished] has the text of
    the one of the import dialog, and the worker is started in the same
    way. *)
Definition search_do_install (result_list : list QListWidgetItem) : Py bool :=
  match to_install result_list with
  | [] => emit (Information "Install" "No apps selected.");; mret false
  | _ =>
      emit (DialogTitle "Installing...");;
      set_installer (to_install result_list);;
      installer_start (to_install result_list);;
      mret true
  end.

(** The search dialog once shown ([dlg.show()]): the actions of the user,
    in order; [ClickCancel] is the "Back" button. *)
Fixpoint search_dlg (result_list : list QListWidgetItem) (actions : list dialog_action)
  : Py unit :=
  match actions with
  | [] => mret ()
  | Toggle i :: rest => search_dlg (alter toggle i result_list) rest
  | ClickCancel :: _ => emit DialogClose
  | ClickInstall :: rest =>
      closed ← search_do_install result_list;
      if closed : bool then mret () else search_dlg result_list rest
  end.

(** [search_apps]; [query] and [ok] are what the input dialog returns.  The
    dialog shown is recorded as [DialogExec] with its title. *)
Definition search_apps (query : string) (ok : bool) (actions : list dialog_action)
  : Py unit :=
  if ok && negb (String.eqb query "") then
    results ← search_brew_apps query;
    match results with
    | [] => emit (Information "Search Results" "No apps found.")
    | _ =>
        let result_list := search_item <$> results in
        emit (DialogExec "Search Results" result_list);;
        search_dlg result_list actions
    end
  else mret ().

(** ** More names for statements *)

(** The world after the launches of [argvs], in order. *)
Definition launched_all (argvs : list (list string)) (w : World) : World :=
  foldl (λ w argv, launched argv w) w argvs.

(** [brew install] exits with code 0 for a, cannot be started for b. *)
Definition world_b_missing : World :=
  fresh_world (λ _ argv,
    if decide (argv = install_argv "b") then LaunchFailed "No such file or directory"
    else Exited 0 "" "").

(** No character of the string is a line boundary. *)
Fixpoint no_linebreak (s : string) : bool :=
  match s with
  | "" => true
  | String c s' => negb (Str.is_linebreak c) && no_linebreak s'
  end.

(** The text that prints each name on a line of its own, as [brew list]
    and [brew search] do. *)
Fixpoint unlines (names : list string) : string :=
  match names with
  | [] => ""
  | name :: rest => name +:+ Str.nl +:+ unlines rest
  end.

(** The names of the items of the main list that are checked. *)
Definition checked_names (w : World) : list string :=
  text <$> List.filter is_checked (list_widget (self w)).

(** The main list holds git, unchecked; every command exits with code 0
    and prints nothing. *)
Definition world_nothing_checked : World :=
  {| brew := λ _ _, Exited 0 "" ""; spawned := 0;
     files := λ _, Unreadable "No such file or directory";
     write_error := λ _, None;
     trace := [];
     self := {| list_widget := [installed_item "git"]; installer := None |} |}.

(** The main list holds git (checked), vim (unchecked) and wget
    (checked); [brew uninstall] exits with code 1 for git and with code 0
    for wget; afterwards the cask listing prints nothing and the formula
    listing prints vim and git. *)
Definition world_two_checked : World :=
  {| brew := λ _ argv,
       if decide (argv = uninstall_argv "git") then Exited 1 "" "Error: git"
       else if decide (argv = formula_argv)
            then Exited 0 ("vim" +:+ Str.nl +:+ "git" +:+ Str.nl) ""
            else Exited 0 "" "";
     spawned := 0;
     files := λ _, Unreadable "No such file or directory";
     write_error := λ _, None;
     trace := [];
     self := {| list_widget := [setCheckState Qt.Checked (installed_item "git");
                                installed_item "vim";
                                setCheckState Qt.Checked (installed_item "wget")];
                installer := Some ["old"] |} |}.

(** The cask listing prints firefox, the formula listing prints git and
    wget, each on a line of its own. *)
Definition world_listed : World :=
  fresh_world (λ _ argv,
    if decide (argv = cask_argv) then Exited 0 (unlines ["firefox"]) ""
    else Exited 0 (unlines ["git"; "wget"]) "").

(** A program whose every run relates the world it starts in to the one it
    ends in by [R], whether it returns or raises. *)
Definition steps {A} (R : relation World) (m : Py A) : Prop :=
  ∀ w, R w (snd (m w)).

(** An event that is neither the start of an install or uninstall, nor the
    signal or the failure of a worker, nor a file written: a launch is one
    of [argvs]. *)
Definition harmless (argvs : list (list string)) (ev : event) : Prop :=
  match ev with
  | Spawn argv => argv ∈ argvs
  | Finished _ _ | WorkerRaised _ | FileWritten _ _ => False
  | _ => True
  end.

(** From [w] to [w'] only harmless events happened, and the window and the
    files are the same. *)
Definition quiet (argvs : list (list string)) (w w' : World) : Prop :=
  self w' = self w ∧ files w' = files w
  ∧ ∃ evs, trace w' = trace w ++ evs ∧ Forall (harmless argvs) evs.

(** Values [set] cannot take as elements, and values it cannot iterate. *)
Definition unhashable (v : json) : Prop :=
  match v with JArray _ | JObject _ => True | _ => False end.

Definition scalar_not_str (v : json) : Prop :=
  match v with JNull | JBool _ | JNumber _ => True | _ => False end.

(** A field value from which [set] raises: it is not iterable, or it is a
    list with an element that cannot be hashed. *)
Definition not_a_set (v : json) : Prop :=
  scalar_not_str v ∨ ∃ elems x, v = JArray elems ∧ x ∈ elems ∧ unhashable x.

(** The files that the [try] of the import rejects, with the exception:
    a file that cannot be opened; a text that is not JSON; a document that
    is not an object; an object whose "cask" field, or whose "formula"
    field when "cask" is absent or an array of strings, is not a set. *)
Inductive import_rejects : file_content → exn → Prop :=
| rejects_unreadable msg : import_rejects (Unreadable msg) (OSError msg)
| rejects_not_json msg : import_rejects (NotJson msg) (JSONDecodeError msg)
| rejects_not_object v :
    (∀ members, v ≠ JObject members) → import_rejects (JsonDoc v) AttributeError
| rejects_cask members :
    not_a_set (dict_get "cask" members (JArray [])) →
    import_rejects (JsonDoc (JObject members)) TypeError
| rejects_formula members cs :
    field_strings members "cask" cs →
    not_a_set (dict_get "formula" members (JArray [])) →
    import_rejects (JsonDoc (JObject members)) TypeError.

(** The import file is the array [[]]. *)
Definition world_array_file : World :=
  {| brew := λ _ _, Exited 0 "" ""; spawned := 0;
     files := λ _, JsonDoc (JArray []);
     write_error := λ _, None;
     trace := [];
     self := {| list_widget := [installed_item "git"]; installer := None |} |}.

(** The import file holds the number 1 among the casks; the listings print
    nothing. *)
Definition world_number_file : World :=
  {| brew := λ _ _, Exited 0 "" ""; spawned := 0;
     files := λ _, JsonDoc (JObject [("cask", JArray [JString "vlc"; JNumber "1"])]);
     write_error := λ _, None;
     trace := [];
     self := {| list_widget := []; installer := None |} |}.

(** The import file gives the casks as the string "vlc", not as an
    array. *)
Definition world_string_field : World :=
  {| brew := λ _ _, Exited 0 "" ""; spawned := 0;
     files := λ _, JsonDoc (JObject [("cask", JString "vlc")]);
     write_error := λ _, None;
     trace := [];
     self := {| list_widget := []; installer := None |} |}.

(** The check boxes clicked, in order. *)
Definition clicked (idxs : list nat) (app_list : list QListWidgetItem)
  : list QListWidgetItem :=
  foldl (λ l i, alter toggle i l) app_list idxs.

(** The search prints three names, the first and the last the same; the
    installs exit with code 0. *)
Definition world_search_hits : World :=
  fresh_world (λ _ argv,
    if decide (argv = search_argv "vim") then Exited 0 (unlines ["vim"; "macvim"; "vim"]) ""
    else Exited 0 "" "").

(** The search exits with code 1. *)
Definition world_search_fails : World :=
  fresh_world (λ _ argv,
    if decide (argv = search_argv "vim") then Exited 1 "" "Error: no formulae found"
    else Exited 0 "" "").

(** The import dialog holds a and b, both checked; [brew install] exits
    with code 1 for a and with code 0 for b; afterwards the formula
    listing prints b. *)
Definition world_install_two : World :=
  fresh_world (λ _ argv,
    if decide (argv = install_argv "a") then Exited 1 "" "Error: a"
    else if decide (argv = formula_argv) then Exited 0 (unlines ["b"]) ""
    else Exited 0 "" "").

(** From [w] to [w'] events were added to the trace, and none taken
    away. *)
Definition extends (w w' : World) : Prop := ∃ evs, trace w' = trace w ++ evs.

(** The search prints bytes that do not decode and exits with code 0. *)
Definition world_search_undecodable : World :=
  fresh_world (λ _ argv,
    if decide (argv = search_argv "vim")
    then Undecodable 0 None
           "'utf-8' codec can't decode byte 0xff in position 0: invalid start byte"
    else Exited 0 "" "").

(** * Properties *)

(** ** The order on names *)

Section str_order.

Lemma ascii_compare_lt_trans a b c :
  Ascii.compare a b = Lt → Ascii.compare b c = Lt → Ascii.compare a c = Lt.
Proof.
  unfold Ascii.compare. rewrite !N.compare_lt_iff. apply N.lt_trans.
Qed.

Lemma ascii_compare_refl a : Ascii.compare a a = Eq.
Proof. unfold Ascii.compare. apply N.compare_refl. Qed.

Lemma str_compare_refl s : String.compare s s = Eq.
Proof.
  induction s as [|a s IH]; simpl; [done|]. by rewrite ascii_compare_refl.
Qed.

Lemma str_compare_cons a b s t :
  String.compare (String a s) (String b t) =
  match Ascii.compare a b with
  | Eq => String.compare s t
  | Lt => Lt
  | Gt => Gt
  end.
Proof. reflexivity. Qed.

Lemma str_leb_trans s1 : ∀ s2 s3,
  String.leb s1 s2 = true → String.leb s2 s3 = true → String.leb s1 s3 = true.
Proof.
  unfold String.leb.
  induction s1 as [|a s1 IH]; intros [|b s2] [|c s3]; simpl; try done.
  destruct (Ascii.compare a b) eqn:Hab; try done;
    destruct (Ascii.compare b c) eqn:Hbc; try done; intros H1 H2.
  - apply Ascii.compare_eq_iff in Hab as ->. rewrite Hbc. by apply IH with s2.
  - apply Ascii.compare_eq_iff in Hab as ->. by rewrite Hbc.
  - apply Ascii.compare_eq_iff in Hbc as <-. by rewrite Hab.
  - by rewrite (ascii_compare_lt_trans _ _ _ Hab Hbc).
Qed.

#[global] Instance str_le_total : Total Str.le.
Proof. intros s1 s2. apply String.leb_total. Qed.

#[global] Instance str_le_trans : Transitive Str.le.
Proof. intros s1 s2 s3. apply str_leb_trans. Qed.

#[global] Instance str_le_antisymm : AntiSymm (=) Str.le.
Proof. intros s1 s2. apply String.leb_antisym. Qed.

#[global] Instance str_le_refl : Reflexive Str.le.
Proof. intros s. unfold Str.le, String.leb. by rewrite str_compare_refl. Qed.

Lemma str_lt_le_ne s1 s2 : Str.lt s1 s2 ↔ Str.le s1 s2 ∧ s1 ≠ s2.
Proof.
  unfold Str.lt, Str.le, String.ltb, String.leb. split.
  - destruct (String.compare s1 s2) eqn:E; try done. intros _. split; [done|].
    intros ->. by rewrite str_compare_refl in E.
  - intros [H Hne]. destruct (String.compare s1 s2) eqn:E; try done.
    by apply String.compare_eq_iff in E.
Qed.

End str_order.

(** ** [strip], [in] and [replace] *)

Lemma append_empty_l s : "" +:+ s = s.
Proof. reflexivity. Qed.

Lemma append_empty_r s : s +:+ "" = s.
Proof. unfold String.app. induction s; simpl; congruence. Qed.

Lemma append_cons c s t : String c s +:+ t = String c (s +:+ t).
Proof. reflexivity. Qed.

Lemma append_assoc s t u : (s +:+ t) +:+ u = s +:+ t +:+ u.
Proof.
  induction s as [|c s IH]; [done|]. by rewrite !append_cons, IH.
Qed.

Lemma lstrip_spec s :
  ∃ pre, s = pre +:+ Str.lstrip s
         ∧ Str.all_space pre = true
         ∧ Str.starts_space (Str.lstrip s) = false.
Proof.
  induction s as [|c s (pre & Hs & Hpre & Hst)].
  - by exists "".
  - simpl. destruct (Str.isspace c) eqn:Hc.
    + exists (String c pre). rewrite append_cons, <- Hs. simpl. by rewrite Hc.
    + exists "". simpl. by rewrite Hc.
Qed.

Lemma rstrip_spec s :
  ∃ post, s = Str.rstrip s +:+ post
          ∧ Str.all_space post = true
          ∧ Str.ends_space (Str.rstrip s) = false.
Proof.
  induction s as [|c s (post & Hs & Hpost & Hen)].
  - by exists "".
  - simpl. destruct (Str.rstrip s) as [|c' r] eqn:Hr.
    + rewrite append_empty_l in Hs. subst post.
      destruct (Str.isspace c) eqn:Hc.
      * exists (String c s). simpl. by rewrite Hc.
      * exists s. simpl. by rewrite Hc.
    + exists post. rewrite append_cons, <- Hs. done.
Qed.

Lemma rstrip_starts_space s :
  Str.starts_space s = false → Str.starts_space (Str.rstrip s) = false.
Proof.
  destruct s as [|c s]; [done|]. simpl. intros Hc.
  destruct (Str.rstrip s); [by rewrite Hc|done].
Qed.

(** [s.strip()] is [s] without a white prefix and a white suffix, and has
    white space at neither end. *)
Lemma strip_spec s :
  ∃ pre post, s = pre +:+ Str.strip s +:+ post
              ∧ Str.all_space pre = true ∧ Str.all_space post = true
              ∧ Str.starts_space (Str.strip s) = false
              ∧ Str.ends_space (Str.strip s) = false.
Proof.
  destruct (lstrip_spec s) as (pre & Hs & Hpre & Hst).
  destruct (rstrip_spec (Str.lstrip s)) as (post & Hl & Hpost & Hen).
  exists pre, post. unfold Str.strip. rewrite <- Hl. repeat split; try done.
  by apply rstrip_starts_space.
Qed.

Lemma prefix_spec a : ∀ s, String.prefix a s = true ↔ ∃ r, s = a +:+ r.
Proof.
  induction a as [|c a IH]; intros s.
  - split; [|by destruct s]. intros _. by exists s.
  - destruct s as [|c' s]; simpl.
    + split; [done|]. by intros [r Hr].
    + destruct (ascii_dec c c') as [->|Hne].
      * rewrite IH. split; intros [r Hr]; exists r.
        -- by rewrite append_cons, <- Hr.
        -- rewrite append_cons in Hr. by injection Hr.
      * split; [done|]. intros [r Hr]. rewrite append_cons in Hr. congruence.
Qed.

(** [sub in s] holds exactly when [s] is some text, [sub], some text. *)
Lemma contains_spec sub : ∀ s,
  Str.contains sub s = true ↔ ∃ l r, s = l +:+ sub +:+ r.
Proof.
  induction s as [|c s IH]; cbn [Str.contains]; rewrite orb_true_iff, prefix_spec.
  - split.
    + intros [[r Hr]|]; [|done]. by exists "", r.
    + intros (l & r & H). left. destruct l; [by exists r|done].
  - rewrite IH. split.
    + intros [[r Hr]|(l & r & Hs)]; [by exists "", r|].
      exists (String c l), r. by rewrite append_cons, <- Hs.
    + intros ([|c' l] & r & H).
      * left. by exists r.
      * right. rewrite append_cons in H. injection H as _ H. by exists l, r.
Qed.

Section replace_facts.
Variable old : string.
Lemma replace_from_length s : ∀ skip,
  (String.length (Str.replace_from old "" skip s) ≤ String.length s - skip)%nat.
Proof.
  induction s as [|c s IH]; intros skip; [simpl; lia|].
  cbn [Str.replace_from]. destruct skip as [|k].
  - destruct (String.prefix old (String c s)).
    + rewrite append_empty_l. specialize (IH (String.length old - 1)%nat).
      simpl. lia.
    + specialize (IH 0%nat). simpl. lia.
  - specialize (IH k). simpl. lia.
Qed.

(** Deleting [old] from a string that contains it makes it shorter. *)
Lemma replace_contains_shorter s :
  old ≠ "" →
  Str.contains old s = true →
  (String.length (Str.replace old "" s) < String.length s)%nat.
Proof.
  intros Hold. unfold Str.replace. destruct old as [|a o] eqn:Eo; [done|].
  rewrite <- Eo. clear Hold.
  induction s as [|c s IH]; intros Hc.
  - simpl in Hc. rewrite Eo in Hc. discriminate.
  - cbn [Str.contains] in Hc. cbn [Str.replace_from].
    destruct (String.prefix old (String c s)) eqn:Hp.
    + rewrite append_empty_l.
      pose proof (replace_from_length s (String.length old - 1)). simpl. lia.
    + simpl in Hc. apply IH in Hc. simpl. lia.
Qed.

(** A string that does not contain [old] is left as it is. *)
Lemma replace_not_contains s :
  old ≠ "" →
  Str.contains old s = false →
  Str.replace old "" s = s.
Proof.
  intros Hold. unfold Str.replace. destruct old as [|a o] eqn:Eo; [done|].
  rewrite <- Eo. clear Hold.
  induction s as [|c s IH]; intros Hc; [done|].
  cbn [Str.contains] in Hc. apply orb_false_iff in Hc as [Hp Hc].
  cbn [Str.replace_from]. rewrite Hp. by rewrite IH.
Qed.

End replace_facts.

Example strip_example : Str.strip ("  Error: x " +:+ Str.nl) = "Error: x".
Proof. reflexivity. Qed.

Example splitlines_example :
  Str.splitlines ("wget" +:+ Str.nl +:+ Str.nl +:+ "git" +:+ Str.nl) = ["wget"; ""; "git"].
Proof. reflexivity. Qed.

Example replace_example : Str.replace "aa" "" "aaab aa" = "ab ".
Proof. reflexivity. Qed.

(** ** [sorted] *)

Section sorted_facts.
Implicit Types (D : gset string) (l : list string).

Lemma sorted_Permutation D : sorted D ≡ₚ elements D.
Proof. apply merge_sort_Permutation. Qed.

Lemma sorted_Sorted D : Sorted Str.le (sorted D).
Proof. apply (Sorted_merge_sort Str.le). Qed.

Lemma elem_of_sorted D x : x ∈ sorted D ↔ x ∈ D.
Proof. by rewrite sorted_Permutation, elem_of_elements. Qed.

Lemma NoDup_sorted D : NoDup (sorted D).
Proof. rewrite sorted_Permutation. apply NoDup_elements. Qed.

Lemma length_sorted D : length (sorted D) = size D.
Proof. by rewrite sorted_Permutation. Qed.

(** A list without duplicates that ascends weakly ascends strictly. *)
Lemma StronglySorted_le_lt l :
  NoDup l → StronglySorted Str.le l → StronglySorted Str.lt l.
Proof.
  induction 2 as [|x l Hl IH Hx]; [constructor|].
  apply NoDup_cons in H as [Hnx Hnd]. constructor; [by apply IH|].
  apply Forall_forall. intros y Hy. apply str_lt_le_ne. split.
  - by eapply Forall_forall in Hx.
  - intros ->. done.
Qed.

Lemma sorted_strictly D : StronglySorted Str.lt (sorted D).
Proof.
  apply StronglySorted_le_lt; [apply NoDup_sorted|].
  apply Sorted_StronglySorted; [apply _|apply sorted_Sorted].
Qed.

(** The result does not depend on the order in which the set hands out its
    elements. *)
Lemma sorted_any_order D l :
  l ≡ₚ elements D → merge_sort Str.le l = sorted D.
Proof.
  intros Hl. apply (Sorted_unique Str.le).
  - apply (Sorted_merge_sort Str.le).
  - apply sorted_Sorted.
  - by rewrite merge_sort_Permutation, sorted_Permutation.
Qed.

End sorted_facts.

(** ** Reconciliation: the list of the import dialog *)

(** The label of an item is its name, marked when the name is
    installed. *)
Lemma import_item_text I app :
  text (import_item I app)
  = app +:+ (if bool_decide (app ∈ I) then " (already installed)" else "").
Proof. unfold import_item. by destruct (bool_decide _). Qed.

(** C2.  For every desired set [D] and installed set [I] the loop of
    [import_and_install_json] returns one entry per element of [D]: there
    is a list [ids] of names that ascends strictly (so it has no
    duplicates), has exactly the elements of [D] and as many entries as
    [D] has elements, and the entries are, position by position, those of
    the names of [ids]: each entry is labelled by its own name, with the
    mark " (already installed)" when the name is installed.  The list is
    the same whatever the order in which the set enumerates its elements,
    and the run leaves the world as it was: the same inputs give the same
    ordered output. *)
Theorem C2_reconcile_sorted_complete (D I : gset string) (w : World) :
  ∃ (ids : list string) (entries : list QListWidgetItem),
    import_app_list (StrSet D) I w = (Ok entries, w)
    ∧ Forall2
        (λ id entry,
           text entry = id +:+ (if bool_decide (id ∈ I) then " (already installed)" else ""))
        ids entries
    ∧ StronglySorted Str.lt ids
    ∧ NoDup ids
    ∧ (∀ x, x ∈ ids ↔ x ∈ D)
    ∧ length entries = size D
    ∧ (∀ l, l ≡ₚ elements D → import_item I <$> merge_sort Str.le l = entries)
    ∧ (∀ w', fst (import_app_list (StrSet D) I w') = Ok entries).
Proof.
  exists (sorted D), (import_item I <$> sorted D). repeat split.
  - apply Forall2_fmap_r, Forall_Forall2_diag, Forall_forall. intros app _.
    apply import_item_text.
  - apply sorted_strictly.
  - apply NoDup_sorted.
  - by apply elem_of_sorted.
  - by apply elem_of_sorted.
  - by rewrite length_fmap, length_sorted.
  - intros l Hl. by rewrite (sorted_any_order D l Hl).
Qed.



(** Scenario 1: firefox is installed, firefox and vscode are desired. *)
Example scenario1_reconcile :
  import_item (list_to_set ["firefox"] ∪ list_to_set []) <$> sorted {[ "firefox"; "vscode" ]}
  = [ {| text := "firefox (already installed)";
         flags := Z.land (Z.lor 53 Qt.ItemIsUserCheckable) (Z.lnot Qt.ItemIsEnabled);
         checkState := Qt.Unchecked |};
      {| text := "vscode"; flags := 53; checkState := Qt.Checked |} ].
Proof. vm_compute. reflexivity. Qed.

(** ** The adapter functions *)

(** One try block of a listing, or the search. *)
Lemma listing_run argv w :
  try_except (out ← check_output argv; mret (Str.splitlines out))
    is_CalledProcessError (λ _, mret []) w
  = (lines_of (brew w (spawned w) argv), launched argv w).
Proof.
  unfold lines_of, lines_of_exit. run_py.
  destruct (brew _ _ _) as [rc out err|rc [out|] msg|msg]; try done;
    by destruct (rc =? 0).
Qed.

Lemma get_brew_apps_run w :
  get_brew_apps w =
    match lines_of (brew w (spawned w) cask_argv) with
    | Ok cask_apps =>
        (match lines_of (brew w (S (spawned w)) formula_argv) with
         | Ok formula_apps => Ok (cask_apps, formula_apps)
         | Raise e => Raise e
         end, launched formula_argv (launched cask_argv w))
    | Raise e => (Raise e, launched cask_argv w)
    end.
Proof.
  unfold get_brew_apps. unfold mbind at 1, Py_bind at 1.
  rewrite listing_run. fold cask_argv.
  destruct (lines_of (brew w (spawned w) cask_argv)) as [c|e]; [|done].
  unfold mbind at 1, Py_bind at 1. rewrite listing_run. fold formula_argv.
  by destruct (lines_of _).
Qed.

Lemma lines_of_stdout outcome rc out :
  exit_with_stdout outcome = Some (rc, out) → lines_of outcome = Ok (lines_of_exit rc out).
Proof. destruct outcome as [? ? ?|? [?|] ?|?]; by intros [= <- <-]. Qed.

(** Both listings run and what they print decodes. *)
Lemma get_brew_apps_stdout w rc1 out1 rc2 out2 :
  exit_with_stdout (brew w (spawned w) cask_argv) = Some (rc1, out1) →
  exit_with_stdout (brew w (S (spawned w)) formula_argv) = Some (rc2, out2) →
  get_brew_apps w =
    (Ok (lines_of_exit rc1 out1, lines_of_exit rc2 out2),
     launched formula_argv (launched cask_argv w)).
Proof.
  intros H1 H2. rewrite get_brew_apps_run.
  by rewrite (lines_of_stdout _ _ _ H1), (lines_of_stdout _ _ _ H2).
Qed.

Lemma get_brew_apps_exited w rc1 out1 err1 rc2 out2 err2 :
  brew w (spawned w) cask_argv = Exited rc1 out1 err1 →
  brew w (S (spawned w)) formula_argv = Exited rc2 out2 err2 →
  get_brew_apps w =
    (Ok (lines_of_exit rc1 out1, lines_of_exit rc2 out2),
     launched formula_argv (launched cask_argv w)).
Proof. intros H1 H2. apply get_brew_apps_stdout; by rewrite ?H1, ?H2. Qed.

Lemma get_brew_apps_cask_launch_failed w msg :
  brew w (spawned w) cask_argv = LaunchFailed msg →
  get_brew_apps w = (Raise (OSError msg), launched cask_argv w).
Proof. intros H. rewrite get_brew_apps_run. by rewrite H. Qed.

Lemma get_brew_apps_formula_launch_failed w rc out err msg :
  brew w (spawned w) cask_argv = Exited rc out err →
  brew w (S (spawned w)) formula_argv = LaunchFailed msg →
  get_brew_apps w =
    (Raise (OSError msg), launched formula_argv (launched cask_argv w)).
Proof. intros H1 H2. rewrite get_brew_apps_run. by rewrite H1, H2. Qed.

Lemma search_brew_apps_run query w :
  search_brew_apps query w =
    (lines_of (brew w (spawned w) (search_argv query)), launched (search_argv query) w).
Proof. apply listing_run. Qed.

(** What [subprocess.run] raises comes from the environment, and carries
    its message. *)
Lemma subprocess_run_raises argv w e :
  fst (subprocess_run argv w) = Raise e →
  ∃ msg, (e = OSError msg ∨ e = UnicodeDecodeError msg) ∧ str_exn e = msg.
Proof.
  unfold subprocess_run. run_py. destruct (brew _ _ _); [done| |];
    intros [= <-]; eauto.
Qed.

Lemma uninstall_brew_app_run app w :
  uninstall_brew_app app w =
    (Ok (match brew w (spawned w) (uninstall_argv app) with
         | Exited rc _ err => if rc =? 0 then (true, "") else (false, Str.strip err)
         | Undecodable _ _ msg => (false, msg)
         | LaunchFailed msg => (false, msg)
         end), launched (uninstall_argv app) w).
Proof.
  unfold uninstall_brew_app. run_py. fold (uninstall_argv app).
  destruct (brew _ _ _) as [rc out err|rc out msg|msg]; simpl; [|done|done].
  by destruct (rc =? 0).
Qed.

Lemma install_step_run app successes failures w :
  install_step app successes failures w =
    (match brew w (spawned w) (install_argv app) with
     | Exited rc _ _ | Undecodable rc _ _ =>
         Ok (if rc =? 0 then (successes ++ [app], failures)
             else (successes, failures ++ [app]))
     | LaunchFailed msg => Raise (OSError msg)
     end, launched (install_argv app) w).
Proof.
  unfold install_step. run_py. fold (install_argv app).
  destruct (brew _ _ _) as [rc out err|rc out msg|msg]; [| |done];
    by destruct (rc =? 0).
Qed.

(** The install step for a process that ran. *)
Lemma install_step_exit app successes failures w rc :
  exit_code (brew w (spawned w) (install_argv app)) = Some rc →
  install_step app successes failures w =
    (Ok (if rc =? 0 then (successes ++ [app], failures)
         else (successes, failures ++ [app])),
     launched (install_argv app) w).
Proof.
  intros H. rewrite install_step_run.
  by destruct (brew _ _ _) as [? ? ?|? ? ?|?]; simplify_eq/=.
Qed.

(** C6, as the code has it.  [uninstall_brew_app] always returns:
    [(True, "")] when the process exits with code zero and its two
    streams decode, [(False, stderr.strip())] when it exits with another
    code and they decode, and [(False, str(e))] when it could not be
    started or a stream does not decode, whatever the exit code.  So the
    first component is [True] exactly when the exit code is zero and both
    streams decode; on a non-zero exit the detail is the error text
    without a white prefix and a white suffix, with white space at
    neither end; and in the two other cases it is the message of the
    exception. *)
Theorem C6_uninstall_result (app : string) (w : World) :
  let outcome := brew w (spawned w) [BREW_PATH; "uninstall"; "--force"; app] in
  let result := fst (uninstall_brew_app app w) in
  result =
    Ok (match outcome with
        | Exited rc _ err => if rc =? 0 then (true, "") else (false, Str.strip err)
        | Undecodable _ _ msg => (false, msg)
        | LaunchFailed msg => (false, msg)
        end)
  ∧ ((∃ detail, result = Ok (true, detail)) ↔ ∃ out err, outcome = Exited 0 out err)
  ∧ (∀ rc out err, outcome = Exited rc out err → rc ≠ 0 →
       ∃ detail pre post,
         result = Ok (false, detail)
         ∧ err = pre +:+ detail +:+ post
         ∧ Str.all_space pre = true ∧ Str.all_space post = true
         ∧ Str.starts_space detail = false ∧ Str.ends_space detail = false)
  ∧ (∀ msg, outcome = LaunchFailed msg → result = Ok (false, str_exn (OSError msg)))
  ∧ (∀ rc out msg, outcome = Undecodable rc out msg →
       result = Ok (false, str_exn (UnicodeDecodeError msg))).
Proof.
  intros outcome result. unfold result. rewrite uninstall_brew_app_run. simpl.
  fold (uninstall_argv app) in outcome. fold outcome. split; [done|].
  split; [|split; [|split]].
  - destruct outcome as [rc out err|rc out msg|msg]; split.
    + intros [detail H]. destruct (Z.eqb_spec rc 0) as [->|]; [eauto|naive_solver].
    + intros (out' & err' & [= -> _ _]). eauto.
    + intros [detail H]. naive_solver.
    + intros (out' & err' & H). discriminate.
    + intros [detail H]. naive_solver.
    + intros (out' & err' & H). discriminate.
  - intros rc out err -> Hrc.
    destruct (strip_spec err) as (pre & post & Herr & Hpre & Hpost & Hst & Hen).
    exists (Str.strip err), pre, post.
    destruct (Z.eqb_spec rc 0) as [->|_]; done.
  - by intros msg ->.
  - by intros rc out msg ->.
Qed.

(** C6 as stated fails: in [world_uninstall_undecodable] the process of
    the uninstall exits with code zero, and the call returns a failure
    with the message of the [UnicodeDecodeError]. *)
Lemma C6_exit_zero_reported_as_failure :
  exit_code (brew world_uninstall_undecodable 0 [BREW_PATH; "uninstall"; "--force"; "wget"])
    = Some 0
  ∧ fst (uninstall_brew_app "wget" world_uninstall_undecodable)
    = Ok (false, "'utf-8' codec can't decode byte 0xff in position 0: invalid start byte").
Proof. split; reflexivity. Qed.




(** C4, as the code has it.  Each adapter operation turns an exit of the
    process, zero or not, into a value when what it captures of the output
    decodes as text: a list (empty when the code is not zero) for the two
    listings and the search, an entry in [successes] or in [failures] for
    an install (which captures nothing), a pair for an uninstall.
    Standard output that does not decode raises a [UnicodeDecodeError]
    before the exit code is looked at, and a process that cannot be
    started raises an [OSError]: both are turned into a value by
    [uninstall_brew_app] only; in [get_brew_apps], [search_brew_apps] and
    the install step they reach the caller. *)
Theorem C4_adapter_failures (w : World) (query app : string)
    (successes failures : list string) :
  fst (get_brew_apps w) =
    match brew w (spawned w) [BREW_PATH; "list"; "--cask"] with
    | LaunchFailed msg => Raise (OSError msg)
    | Undecodable _ None msg => Raise (UnicodeDecodeError msg)
    | Exited rc1 out1 _ | Undecodable rc1 (Some out1) _ =>
        match brew w (S (spawned w)) [BREW_PATH; "list"] with
        | LaunchFailed msg => Raise (OSError msg)
        | Undecodable _ None msg => Raise (UnicodeDecodeError msg)
        | Exited rc2 out2 _ | Undecodable rc2 (Some out2) _ =>
            Ok (if rc1 =? 0 then Str.splitlines out1 else [],
                if rc2 =? 0 then Str.splitlines out2 else [])
        end
    end
  ∧ fst (search_brew_apps query w) =
    match brew w (spawned w) [BREW_PATH; "search"; query] with
    | LaunchFailed msg => Raise (OSError msg)
    | Undecodable _ None msg => Raise (UnicodeDecodeError msg)
    | Exited rc out _ | Undecodable rc (Some out) _ =>
        Ok (if rc =? 0 then Str.splitlines out else [])
    end
  ∧ fst (install_step app successes failures w) =
    match brew w (spawned w) ["brew"; "install"; app] with
    | LaunchFailed msg => Raise (OSError msg)
    | Exited rc _ _ | Undecodable rc _ _ =>
        Ok (if rc =? 0 then (successes ++ [app], failures)
            else (successes, failures ++ [app]))
    end
  ∧ fst (uninstall_brew_app app w) =
    match brew w (spawned w) [BREW_PATH; "uninstall"; "--force"; app] with
    | LaunchFailed msg => Ok (false, msg)
    | Undecodable _ _ msg => Ok (false, msg)
    | Exited rc _ err => Ok (if rc =? 0 then (true, "") else (false, Str.strip err))
    end.
Proof.
  repeat split.
  - rewrite get_brew_apps_run. fold cask_argv formula_argv.
    unfold lines_of, lines_of_exit.
    destruct (brew w (spawned w) cask_argv) as [rc1 out1 err1|rc1 [out1|] msg|msg];
      try done;
      by destruct (brew w (S (spawned w)) formula_argv) as [rc2 out2 err2|rc2 [out2|] msg'|msg'].
  - rewrite search_brew_apps_run. simpl. fold (search_argv query).
    by destruct (brew _ _ _) as [? ? ?|? [?|] ?|?].
  - rewrite install_step_run. simpl. fold (install_argv app).
    by destruct (brew _ _ _).
  - rewrite uninstall_brew_app_run. simpl. fold (uninstall_argv app).
    by destruct (brew _ _ _).
Qed.

(** C4 as stated fails: in [world_no_brew] no process can be started, and
    the listing, the search and the worker raise instead of returning. *)
Lemma C4_launch_failure_propagates :
  fst (get_brew_apps world_no_brew) = Raise (OSError "No such file or directory")
  ∧ fst (search_brew_apps "wget" world_no_brew) = Raise (OSError "No such file or directory")
  ∧ fst (BrewInstaller_run ["wget"] world_no_brew) = Raise (OSError "No such file or directory").
Proof. repeat split. Qed.

(** ** The batches *)

Lemma batch_result_Permutation w apps : ∀ n,
  (batch_result w n apps).1 ++ (batch_result w n apps).2 ≡ₚ apps.
Proof.
  induction apps as [|app rest IH]; intros n; simpl; [done|].
  specialize (IH (S n)). destruct (batch_result w (S n) rest) as [s f].
  destruct (install_ok w n app); simpl in *.
  - by rewrite IH.
  - by rewrite <- Permutation_middle, IH.
Qed.

Lemma batch_launches_cons w n app rest :
  batch_launches w n (app :: rest) →
  (∃ rc, exit_code (brew w n (install_argv app)) = Some rc)
  ∧ batch_launches w (S n) rest.
Proof.
  intros H. split.
  - destruct (H 0%nat app eq_refl) as (rc & Hb).
    rewrite Nat.add_0_r in Hb. eauto.
  - intros i a Hi. destruct (H (S i) a Hi) as (rc & Hb).
    rewrite Nat.add_succ_r in Hb. eauto.
Qed.

(** The loop of the worker, when every launch starts a process: the two
    lists grow by the two parts of [batch_result]. *)
Lemma BrewInstaller_run_loop_run apps : ∀ w successes failures,
  batch_launches w (spawned w) apps →
  ∃ w', BrewInstaller_run_loop apps successes failures w =
          (Ok (successes ++ (batch_result w (spawned w) apps).1,
               failures ++ (batch_result w (spawned w) apps).2), w')
        ∧ brew w' = brew w ∧ self w' = self w
        ∧ spawned w' = (spawned w + length apps)%nat.
Proof.
  induction apps as [|app rest IH]; intros w successes failures Hl.
  - exists w. simpl. rewrite !app_nil_r, Nat.add_0_r. done.
  - apply batch_launches_cons in Hl as [(rc & Hb) Hrest].
    cbn [BrewInstaller_run_loop]. unfold mbind, Py_bind at 1.
    rewrite (install_step_exit _ _ _ _ _ Hb).
    assert (Hok : install_ok w (spawned w) app = (rc =? 0))
      by (unfold install_ok; by rewrite Hb).
    assert (Hsame : ∀ n l, batch_result (launched (install_argv app) w) n l
                           = batch_result w n l).
    { intros n l. revert n. induction l as [|a l IHl]; intros n; [done|].
      simpl. by rewrite IHl. }
    set (w1 := launched (install_argv app) w).
    assert (Hrest1 : batch_launches w1 (spawned w1) rest) by exact Hrest.
    cbn [batch_result]. rewrite Hok.
    destruct (batch_result w (S (spawned w)) rest) as [s f] eqn:Hbr.
    destruct (rc =? 0); simpl.
    + destruct (IH w1 (successes ++ [app]) failures Hrest1) as (w' & -> & ? & ? & Hs).
      exists w'. rewrite Hsame. simpl. rewrite Hbr. simpl.
      rewrite <- app_assoc. simpl. repeat split; try done.
      rewrite Hs. simpl. lia.
    + destruct (IH w1 successes (failures ++ [app]) Hrest1) as (w' & -> & ? & ? & Hs).
      exists w'. rewrite Hsame. simpl. rewrite Hbr. simpl.
      rewrite <- app_assoc. simpl. repeat split; try done.
      rewrite Hs. simpl. lia.
Qed.

(** The install path of the batch executor: when every [brew install]
    starts a process, the worker reports two lists that together are the
    batch (each target once, by the exit code of its own launch), whatever
    the number of failures; with distinct targets no name is in both. *)
Lemma BrewInstaller_run_partition (apps : list string) (w : World) :
  batch_launches w (spawned w) apps →
  ∃ successes failures,
    fst (BrewInstaller_run apps w) = Ok (successes, failures)
    ∧ (successes, failures) = batch_result w (spawned w) apps
    ∧ successes ++ failures ≡ₚ apps
    ∧ (∀ x, x ∈ apps ↔ x ∈ successes ∨ x ∈ failures)
    ∧ (NoDup apps → ∀ x, x ∈ successes → x ∉ failures).
Proof.
  intros Hl.
  destruct (BrewInstaller_run_loop_run apps w [] [] Hl) as (w' & Hrun & _).
  pose proof (batch_result_Permutation w apps (spawned w)) as Hperm.
  destruct (batch_result w (spawned w) apps) as [s f]. simpl in *.
  exists s, f. unfold BrewInstaller_run, mbind, Py_bind. rewrite Hrun. simpl.
  repeat split; try done.
  - intros Hx. rewrite <- Hperm in Hx. by apply elem_of_app in Hx.
  - intros Hx. rewrite <- Hperm. by apply elem_of_app.
  - intros Hnd x Hs Hf. rewrite <- Hperm in Hnd.
    apply NoDup_app in Hnd as (_ & Hdisj & _). by apply (Hdisj x).
Qed.

(** Scenario 2: of the batch a, b, c the install of b exits non-zero. *)
Example scenario2_partial_failure :
  fst (BrewInstaller_run ["a"; "b"; "c"] world_b_fails) = Ok (["a"; "c"], ["b"]).
Proof. reflexivity. Qed.

(** Scenario 5: the empty batch starts no process. *)
Example scenario5_empty_batch w :
  BrewInstaller_run [] w =
    (Ok ([], []), snd (emit (Finished [] []) w)).
Proof. reflexivity. Qed.

(** [uninstall_brew_app] returns a pair, and a pair is true: the loop of
    [uninstall_selected] appends nothing to [errors], whatever the
    processes do. *)
Lemma uninstall_loop_errors to_uninstall : ∀ errors w,
  fst (uninstall_loop to_uninstall errors w) = Ok errors.
Proof.
  induction to_uninstall as [|app rest IH]; intros errors w; [done|].
  cbn [uninstall_loop]. unfold mbind at 1, Py_bind at 1, try_except.
  unfold mbind, Py_bind. rewrite uninstall_brew_app_run. simpl. apply IH.
Qed.

(** So whenever something is checked, [uninstall_selected] reports
    success, whatever the processes did. *)
Lemma uninstall_selected_reports_success w :
  let to_uninstall := text <$> List.filter is_checked (list_widget (self w)) in
  to_uninstall ≠ [] →
  uninstall_selected w =
    refresh_app_list
      (snd (emit (Information "Uninstall" "Selected apps uninstalled.")
              (snd (uninstall_loop to_uninstall [] w)))).
Proof.
  intros to_uninstall Hne. unfold uninstall_selected, get_self.
  unfold mbind at 1, Py_bind at 1. fold to_uninstall.
  destruct to_uninstall as [|app rest] eqn:E; [done|].
  unfold mbind, Py_bind.
  pose proof (uninstall_loop_errors (app :: rest) [] w) as Hl.
  destruct (uninstall_loop (app :: rest) [] w) as [r w1]. simpl in Hl. subst r.
  reflexivity.
Qed.

(** C1, the uninstall path.  In [world_uninstall_fails] the user has
    checked wget and [brew uninstall] exits with code 1:
    [uninstall_brew_app] returns the failure with the error text, yet the
    loop of [uninstall_selected] leaves [errors] empty and the user is
    told that the selected apps were uninstalled.  The failed target is
    in no list. *)
Theorem C1_uninstall_failure_dropped :
  fst (uninstall_brew_app "wget" world_uninstall_fails)
    = Ok (false, "Error: No such keg: wget")
  ∧ fst (uninstall_loop ["wget"] [] world_uninstall_fails) = Ok []
  ∧ trace (snd (uninstall_selected world_uninstall_fails)) =
      [Spawn [BREW_PATH; "uninstall"; "--force"; "wget"];
       Information "Uninstall" "Selected apps uninstalled.";
       Spawn [BREW_PATH; "list"; "--cask"];
       Spawn [BREW_PATH; "list"]].
Proof. repeat split. Qed.

(** ** Import: the desired set *)

Lemma dict_get_absent key members : ∀ default,
  key ∉ members.*1 → dict_get key members default = default.
Proof.
  induction members as [|[k v] rest IH]; intros default Hk; [done|].
  simpl in *. apply not_elem_of_cons in Hk as [Hne Hk].
  rewrite IH by done. by rewrite decide_False.
Qed.

Lemma dict_get_last key v before after : ∀ default,
  key ∉ after.*1 →
  dict_get key (before ++ (key, v) :: after) default = v.
Proof.
  induction before as [|[k' v'] before IH]; intros default Hk; simpl.
  - rewrite decide_True by done. by apply dict_get_absent.
  - by apply IH.
Qed.

(** A member with another key changes no lookup. *)
Lemma dict_get_other key k v m1 m2 : ∀ default,
  k ≠ key →
  dict_get key (m1 ++ (k, v) :: m2) default = dict_get key (m1 ++ m2) default.
Proof.
  induction m1 as [|[k' v'] m1 IH]; intros default Hk; simpl.
  - by rewrite decide_False.
  - by apply IH.
Qed.

Lemma set_of_list_strings (l : list string) :
  set_of_list (JString <$> l) = Ok (StrSet (list_to_set l)).
Proof.
  induction l as [|x l IH]; [done|].
  rewrite fmap_cons. cbn [set_of_list]. by rewrite IH.
Qed.

Lemma field_strings_get members key l :
  field_strings members key l →
  ∃ elems, dict_get key members (JArray []) = JArray elems
           ∧ set_of_list elems = Ok (StrSet (list_to_set l)).
Proof.
  intros [[Hk ->]|(before & after & -> & Hk)].
  - exists []. by rewrite dict_get_absent.
  - exists (JString <$> l). rewrite dict_get_last by done.
    split; [done|apply set_of_list_strings].
Qed.

Lemma load_import_object path members elems1 elems2 s1 s2 w :
  files w path = JsonDoc (JObject members) →
  dict_get "cask" members (JArray []) = JArray elems1 →
  dict_get "formula" members (JArray []) = JArray elems2 →
  set_of_list elems1 = Ok s1 →
  set_of_list elems2 = Ok s2 →
  load_import path w = (Ok (s1, s2), w).
Proof.
  intros Hf H1 H2 Hs1 Hs2.
  unfold load_import, json_load, data_get, mbind, mret, Py_bind, Py_ret.
  rewrite Hf, H1. simpl. rewrite Hs1, H2. simpl. by rewrite Hs2.
Qed.

(** Scenario 3, run: the dialog lists wget once, checked. *)
Example scenario3_dialog_list :
  fst ((sets ← load_import "apps.json";
        import_app_list (pyset_union sets.1 sets.2) ∅) world_scenario3)
  = Ok [setCheckState Qt.Checked (installed_item "wget")].
Proof. vm_compute. reflexivity. Qed.

(** ** Import: a file that is not JSON *)

(** C8.  When the chosen file is not JSON, [import_and_install_json]
    shows the error and returns: the only event is the "Import Error"
    message with the decoding error, so no dialog is opened and no process
    is started, and the window, the files and the process count are what
    they were. *)
Theorem C8_malformed_import_aborts (path : string) (actions : list dialog_action)
    (msg : string) (w : World) :
  path ≠ "" →
  files w path = NotJson msg →
  let w' := snd (import_and_install_json path actions w) in
  fst (import_and_install_json path actions w) = Ok ()
  ∧ trace w' = trace w ++
      [Critical "Import Error" ("Failed to read JSON:" +:+ Str.nl) (JSONDecodeError msg)]
  ∧ self w' = self w
  ∧ spawned w' = spawned w
  ∧ files w' = files w
  ∧ brew w' = brew w.
Proof.
  intros Hp Hf. destruct path as [|c path]; [done|].
  unfold import_and_install_json, load_import, json_load, try_except,
    mbind, mret, Py_bind, Py_ret.
  rewrite Hf. simpl. done.
Qed.

(** Scenario 4 is an instance: the file is empty, and the user would have
    pressed "Install Selected". *)
Lemma C8_malformed_import_aborts_witness :
  fst (import_and_install_json "apps.json" [ClickInstall] world_empty_file) = Ok ()
  ∧ trace (snd (import_and_install_json "apps.json" [ClickInstall] world_empty_file)) =
      trace world_empty_file ++
      [Critical "Import Error" ("Failed to read JSON:" +:+ Str.nl)
         (JSONDecodeError "Expecting value: line 1 column 1 (char 0)")]
  ∧ self (snd (import_and_install_json "apps.json" [ClickInstall] world_empty_file))
      = self world_empty_file
  ∧ spawned (snd (import_and_install_json "apps.json" [ClickInstall] world_empty_file))
      = spawned world_empty_file
  ∧ files (snd (import_and_install_json "apps.json" [ClickInstall] world_empty_file))
      = files world_empty_file
  ∧ brew (snd (import_and_install_json "apps.json" [ClickInstall] world_empty_file))
      = brew world_empty_file.
Proof.
  apply (C8_malformed_import_aborts "apps.json" [ClickInstall]
           "Expecting value: line 1 column 1 (char 0)" world_empty_file).
  - discriminate.
  - reflexivity.
Defined.

(** ** The names handed to the installer *)

Lemma import_item_selected I app :
  app ∉ I →
  let item := import_item I app in
  text item = app ∧ is_enabled item = true ∧ is_checked item = true.
Proof.
  intros Hn. unfold import_item. rewrite bool_decide_eq_false_2 by done.
  simpl. by rewrite append_empty_r.
Qed.

Section keeps_installer_facts.
Context {A B : Type}.

Lemma keeps_ret (a : A) : keeps_installer (mret a).
Proof. done. Qed.

Lemma keeps_raise (e : exn) : keeps_installer (@raise A e).
Proof. done. Qed.

Lemma keeps_bind (m : Py A) (k : A → Py B) :
  keeps_installer m → (∀ a, keeps_installer (k a)) → keeps_installer (m ≫= k).
Proof.
  intros Hm Hk w. unfold mbind, Py_bind. specialize (Hm w).
  destruct (m w) as [[a|e] w1]; simpl in *; [|done]. by rewrite Hk.
Qed.

Lemma keeps_try_except (body : Py A) class (handler : exn → Py A) :
  keeps_installer body → (∀ e, keeps_installer (handler e)) →
  keeps_installer (try_except body class handler).
Proof.
  intros Hb Hh w. unfold try_except. specialize (Hb w).
  destruct (body w) as [[a|e] w1]; simpl in *; [done|].
  destruct (class e); [|done]. by rewrite Hh.
Qed.

End keeps_installer_facts.

Lemma keeps_emit ev : keeps_installer (emit ev).
Proof. done. Qed.

Lemma keeps_subprocess_call {A} argv (reads : proc_outcome → result A) :
  keeps_installer (subprocess_call argv reads).
Proof. done. Qed.

Lemma keeps_set_list_widget items : keeps_installer (set_list_widget items).
Proof. done. Qed.

Create HintDb keeps.
#[local] Hint Resolve keeps_ret keeps_raise keeps_emit keeps_subprocess_call
  keeps_set_list_widget : keeps.

(** Goes through binds and handlers, and through the patterns and tests of
    a continuation. *)
Ltac keeps :=
  repeat match goal with
    | |- keeps_installer (match ?x with _ => _ end) => destruct x
    | |- keeps_installer (_ ≫= _) => apply keeps_bind
    | |- keeps_installer (try_except _ _ _) => apply keeps_try_except
    | |- keeps_installer _ => solve [eauto with keeps]
    | |- ∀ _, _ => intro
    | _ => progress cbv beta
    end.

Lemma keeps_check_output argv : keeps_installer (check_output argv).
Proof. done. Qed.

Lemma keeps_check_call argv : keeps_installer (check_call argv).
Proof. done. Qed.

#[local] Hint Resolve keeps_check_output keeps_check_call : keeps.

Lemma keeps_get_brew_apps : keeps_installer get_brew_apps.
Proof. unfold get_brew_apps. keeps. Qed.

#[local] Hint Resolve keeps_get_brew_apps : keeps.

Lemma keeps_refresh_app_list : keeps_installer refresh_app_list.
Proof. unfold refresh_app_list. keeps. Qed.

Lemma keeps_install_step app successes failures :
  keeps_installer (install_step app successes failures).
Proof. unfold install_step. keeps. Qed.

#[local] Hint Resolve keeps_refresh_app_list keeps_install_step : keeps.

Lemma keeps_BrewInstaller_run_loop apps : ∀ successes failures,
  keeps_installer (BrewInstaller_run_loop apps successes failures).
Proof.
  induction apps as [|app rest IH]; intros successes failures; simpl; keeps.
Qed.

#[local] Hint Resolve keeps_BrewInstaller_run_loop : keeps.

Lemma keeps_BrewInstaller_run apps : keeps_installer (BrewInstaller_run apps).
Proof. unfold BrewInstaller_run. keeps. Qed.

Lemma keeps_on_finished successes failures :
  keeps_installer (on_finished successes failures).
Proof. unfold on_finished. keeps. Qed.

#[local] Hint Resolve keeps_BrewInstaller_run keeps_on_finished : keeps.

Lemma keeps_installer_start apps : keeps_installer (installer_start apps).
Proof.
  intros w. unfold installer_start.
  pose proof (keeps_BrewInstaller_run apps w) as Hrun.
  destruct (BrewInstaller_run apps w) as [[[successes failures]|e] w1]; simpl in Hrun.
  - by rewrite keeps_on_finished.
  - done.
Qed.

#[local] Hint Resolve keeps_installer_start : keeps.

Lemma set_installer_then {A} ev selected (m : Py A) w :
  keeps_installer m →
  installer (self (snd ((emit ev;; set_installer selected;; m) w))) = Some selected.
Proof.
  intros Hk. unfold mbind, Py_bind, emit, set_installer, get_self, put_self.
  simpl. by rewrite Hk.
Qed.

(** [do_install] with a selection: the worker it starts is the one for
    [selected], whatever happens afterwards. *)
Lemma do_install_installer app_list w :
  selected_names app_list ≠ [] →
  installer (self (snd (do_install app_list w))) = Some (selected_names app_list).
Proof.
  intros Hsel. unfold do_install.
  destruct (selected_names app_list) as [|n rest] eqn:E; [done|].
  apply set_installer_then. keeps.
Qed.

(** C10.  The list [selected] of [do_install] is made of the labels of
    the items that are enabled and checked, each with every occurrence
    of " (already installed)" deleted.  So for a name of the desired
    set that is not installed and that contains that text, the dialog
    opens with an item labelled by the name, enabled and checked;
    [do_install] starts the worker for [selected]; and [selected] holds
    the name with the text deleted, which is shorter than the name and so
    is not the name. *)
Theorem C10_label_stripping_changes_name (D I : gset string) (app : string) :
  app ∈ D →
  app ∉ I →
  Str.contains " (already installed)" app = true →
  let app_list := import_item I <$> sorted D in
  let name := Str.replace " (already installed)" "" app in
  selected_names app_list =
    (λ item, Str.replace " (already installed)" "" (text item))
      <$> List.filter (λ item, is_enabled item && is_checked item) app_list
  ∧ import_item I app ∈ app_list
  ∧ text (import_item I app) = app
  ∧ name ∈ selected_names app_list
  ∧ (∀ w, installer (self (snd (do_install app_list w)))
          = Some (selected_names app_list))
  ∧ (String.length name < String.length app)%nat
  ∧ name ≠ app.
Proof.
  intros HD HI Hc app_list name.
  destruct (import_item_selected I app HI) as (Ht & He & Hk).
  assert (Hin : import_item I app ∈ app_list).
  { apply list_elem_of_fmap. exists app. split; [done|]. by apply elem_of_sorted. }
  assert (Hlen : (String.length name < String.length app)%nat)
    by (by apply replace_contains_shorter).
  assert (Hsel : name ∈ selected_names app_list).
  { unfold selected_names. apply list_elem_of_fmap.
    exists (import_item I app). fold already_label. rewrite Ht. split; [done|].
    apply list_elem_of_In, filter_In. split; [by apply list_elem_of_In|].
    by rewrite He, Hk. }
  repeat split; try done.
  - intros w. apply do_install_installer. intros Hnil.
    rewrite Hnil in Hsel. by apply elem_of_nil in Hsel.
  - intros Heq. rewrite Heq in Hlen. lia.
Qed.

(** The desired set holds the one name "foo (already installed)", which
    is not installed: the installer is handed "foo". *)
Lemma C10_label_stripping_changes_name_witness :
  selected_names (import_item ∅ <$> sorted {[ "foo (already installed)" ]}) =
    (λ item, Str.replace " (already installed)" "" (text item))
      <$> List.filter (λ item, is_enabled item && is_checked item)
            (import_item ∅ <$> sorted {[ "foo (already installed)" ]})
  ∧ import_item ∅ "foo (already installed)"
      ∈ import_item ∅ <$> sorted {[ "foo (already installed)" ]}
  ∧ text (import_item ∅ "foo (already installed)") = "foo (already installed)"
  ∧ "foo" ∈ selected_names (import_item ∅ <$> sorted {[ "foo (already installed)" ]})
  ∧ (∀ w, installer (self (snd (do_install
            (import_item ∅ <$> sorted {[ "foo (already installed)" ]}) w)))
          = Some (selected_names (import_item ∅ <$> sorted {[ "foo (already installed)" ]})))
  ∧ (String.length "foo" < String.length "foo (already installed)")%nat
  ∧ "foo" ≠ "foo (already installed)".
Proof.
  apply (C10_label_stripping_changes_name
           {[ "foo (already installed)" ]} ∅ "foo (already installed)").
  - apply elem_of_singleton. reflexivity.
  - apply not_elem_of_empty.
  - reflexivity.
Defined.

(** The same, run: the user accepts the dialog as it opens, and the
    process started is [brew install foo]. *)
Example odd_name_run :
  trace (snd (import_and_install_json "apps.json" [ClickInstall] world_odd_name)) =
    [Spawn [BREW_PATH; "list"; "--cask"]; Spawn [BREW_PATH; "list"];
     DialogExec "Confirm Apps to Install"
       [{| text := "foo (already installed)"; flags := 53; checkState := Qt.Checked |}];
     DialogTitle "Installing...";
     Spawn ["brew"; "install"; "foo"];
     Finished ["foo"] [];
     Information "Install" ("Installed: foo" +:+ Str.nl);
     DialogClose;
     Spawn [BREW_PATH; "list"; "--cask"]; Spawn [BREW_PATH; "list"]].
Proof. vm_compute. reflexivity. Qed.

(** ** Export, then import *)

Lemma get_brew_apps_ok_world w r :
  fst (get_brew_apps w) = Ok r →
  snd (get_brew_apps w) = launched formula_argv (launched cask_argv w).
Proof.
  rewrite get_brew_apps_run.
  by destruct (lines_of (brew w (spawned w) cask_argv)).
Qed.


(** An export that returns has written the file. *)
Lemma export_installed_json_file path w cask_apps formula_apps :
  path ≠ "" →
  fst (get_brew_apps w) = Ok (cask_apps, formula_apps) →
  fst (export_installed_json path w) = Ok () →
  files (snd (export_installed_json path w)) path
    = JsonDoc (export_data cask_apps formula_apps).
Proof.
  intros Hp Hg. unfold export_installed_json, mbind, Py_bind.
  destruct (get_brew_apps w) as [r w1]. simpl in Hg. subst r.
  destruct path as [|c path]; [done|]. unfold json_dump.
  destruct (write_error w1 _); [done|]. simpl. by rewrite decide_True.
Qed.

Lemma load_import_exported path w cask_apps formula_apps :
  files w path = JsonDoc (export_data cask_apps formula_apps) →
  load_import path w =
    (Ok (StrSet (list_to_set cask_apps), StrSet (list_to_set formula_apps)), w).
Proof.
  intros Hf.
  apply load_import_object with
    (members := [("cask", JArray (JString <$> cask_apps));
                 ("formula", JArray (JString <$> formula_apps))])
    (elems1 := JString <$> cask_apps) (elems2 := JString <$> formula_apps);
    try done; apply set_of_list_strings.
Qed.

(** The import, once the file is read and the listings have run: the
    dialog is opened on the items of the sorted desired set. *)
Lemma import_and_install_json_opens path actions w ic ifo cask_apps formula_apps :
  path ≠ "" →
  load_import path w = (Ok (StrSet ic, StrSet ifo), w) →
  fst (get_brew_apps w) = Ok (cask_apps, formula_apps) →
  let already_installed : gset string := list_to_set cask_apps ∪ list_to_set formula_apps in
  let app_list := import_item already_installed <$> sorted (ic ∪ ifo) in
  import_and_install_json path actions w =
    dlg_exec app_list actions
      (snd (emit (DialogExec "Confirm Apps to Install" app_list)
              (launched formula_argv (launched cask_argv w)))).
Proof.
  intros Hp Hload Hg already_installed app_list.
  pose proof (get_brew_apps_ok_world w _ Hg) as Hw.
  destruct path as [|c path]; [done|].
  unfold import_and_install_json, try_except, mbind, mret, Py_bind, Py_ret.
  rewrite Hload.
  destruct (get_brew_apps w) as [r w']. simpl in Hg, Hw. subst r w'.
  reflexivity.
Qed.

Lemma toggle_locked item : is_enabled item = false → toggle item = item.
Proof. intros H. unfold toggle. by rewrite H. Qed.

Lemma alter_toggle_locked app_list : ∀ i,
  Forall (λ item, is_enabled item = false) app_list →
  alter toggle i app_list = app_list.
Proof.
  induction app_list as [|item l IH]; intros i Hl; [done|].
  apply Forall_cons in Hl as [Hi Hl]. destruct i as [|i]; csimpl.
  - by rewrite toggle_locked.
  - by rewrite IH.
Qed.

Lemma selected_names_locked app_list :
  Forall (λ item, is_enabled item = false) app_list →
  selected_names app_list = [].
Proof.
  intros Hl. unfold selected_names.
  induction Hl as [|item l Hi Hl IH]; [done|]. simpl. by rewrite Hi.
Qed.

(** In a dialog whose items are all disabled the user can change nothing
    and start nothing. *)
Lemma dlg_exec_locked app_list actions :
  Forall (λ item, is_enabled item = false) app_list →
  ∀ w, ∃ evs,
    fst (dlg_exec app_list actions w) = Ok ()
    ∧ trace (snd (dlg_exec app_list actions w)) = trace w ++ evs
    ∧ Forall idle_event evs
    ∧ spawned (snd (dlg_exec app_list actions w)) = spawned w
    ∧ self (snd (dlg_exec app_list actions w)) = self w.
Proof.
  intros Hl. induction actions as [|[i| |] rest IH]; intros w.
  - exists []. simpl. by rewrite app_nil_r.
  - cbn [dlg_exec]. rewrite alter_toggle_locked by done. apply IH.
  - cbn [dlg_exec]. unfold do_install. rewrite selected_names_locked by done.
    unfold mbind, mret, Py_bind, Py_ret. simpl.
    destruct (IH (snd (emit (Information "Install" "No apps selected.") w)))
      as (evs & H1 & H2 & H3 & H4 & H5).
    exists (Information "Install" "No apps selected." :: evs).
    simpl in *. rewrite H1, H2, H4, H5, <- app_assoc. repeat split; try done.
    constructor; [by left|done].
  - exists [DialogClose]. simpl. repeat split. constructor; [by right|done].
Qed.

Lemma import_item_installed (installed : gset string) app :
  app ∈ installed →
  let item := import_item installed app in
  text item = app +:+ already_label
  ∧ is_enabled item = false ∧ is_checked item = false.
Proof.
  intros Hin. unfold import_item. by rewrite bool_decide_eq_true_2.
Qed.

(** C9.  Let the installed casks and formulae be exported to [path] (the
    export returns: the file could be written), and let that file be
    imported while the two listings give the same lists.
    Then the dialog shows one item for every installed name, each marked
    "already installed", disabled and unchecked; [selected] is empty;
    whatever the user does in the dialog, no process other than the two
    listings is started, and the window is left as it was. *)
Theorem C9_export_import_round_trip (path : string) (actions : list dialog_action)
    (cask_apps formula_apps : list string) (w w2 : World) :
  path ≠ "" →
  fst (get_brew_apps w) = Ok (cask_apps, formula_apps) →
  fst (export_installed_json path w) = Ok () →
  files w2 path = files (snd (export_installed_json path w)) path →
  fst (get_brew_apps w2) = Ok (cask_apps, formula_apps) →
  let installed : gset string := list_to_set cask_apps ∪ list_to_set formula_apps in
  let app_list := import_item installed <$> sorted installed in
  let w3 := snd (import_and_install_json path actions w2) in
  fst (import_and_install_json path actions w2) = Ok ()
  ∧ (∃ evs, trace w3 =
       trace w2 ++ [Spawn [BREW_PATH; "list"; "--cask"]; Spawn [BREW_PATH; "list"];
                    DialogExec "Confirm Apps to Install" app_list] ++ evs
     ∧ Forall idle_event evs)
  ∧ (∀ x, x ∈ sorted installed ↔ x ∈ cask_apps ∨ x ∈ formula_apps)
  ∧ Forall (λ item, is_enabled item = false ∧ is_checked item = false
                    ∧ ∃ app, (app ∈ cask_apps ∨ app ∈ formula_apps)
                             ∧ text item = app +:+ " (already installed)") app_list
  ∧ selected_names app_list = []
  ∧ spawned w3 = S (S (spawned w2))
  ∧ self w3 = self w2.
Proof.
  intros Hp Hexp Hwritten Hfile Himp installed app_list w3.
  assert (Hmem : ∀ x, x ∈ installed ↔ x ∈ cask_apps ∨ x ∈ formula_apps).
  { intros x. unfold installed. by rewrite elem_of_union, !elem_of_list_to_set. }
  assert (Hall : Forall (λ item, is_enabled item = false ∧ is_checked item = false
                    ∧ ∃ app, (app ∈ cask_apps ∨ app ∈ formula_apps)
                             ∧ text item = app +:+ " (already installed)") app_list).
  { apply Forall_fmap, Forall_forall. intros app Happ. apply elem_of_sorted in Happ.
    destruct (import_item_installed installed app Happ) as (Ht & He & Hc).
    simpl. repeat split; try done. exists app. split; [by apply Hmem|done]. }
  assert (Hlocked : Forall (λ item, is_enabled item = false) app_list).
  { eapply Forall_impl; [exact Hall|]. by intros item [? _]. }
  rewrite (export_installed_json_file path w cask_apps formula_apps Hp Hexp Hwritten)
    in Hfile.
  assert (Hrun : import_and_install_json path actions w2 =
            dlg_exec app_list actions
              (snd (emit (DialogExec "Confirm Apps to Install" app_list)
                      (launched formula_argv (launched cask_argv w2))))).
  { apply (import_and_install_json_opens path actions w2
             (list_to_set cask_apps) (list_to_set formula_apps) cask_apps formula_apps);
      [done|by apply load_import_exported|done]. }
  unfold w3. rewrite Hrun.
  destruct (dlg_exec_locked app_list actions Hlocked
              (snd (emit (DialogExec "Confirm Apps to Install" app_list)
                      (launched formula_argv (launched cask_argv w2)))))
    as (evs & H1 & H2 & H3 & H4 & H5).
  repeat split; try done.
  - exists evs. split; [|done]. rewrite H2. simpl. by rewrite <- !app_assoc.
  - rewrite elem_of_sorted. apply Hmem.
  - rewrite elem_of_sorted. apply Hmem.
  - by apply selected_names_locked.
Qed.

(** Firefox and wget are installed; the list is exported to [apps.json]
    and imported again, and the user presses "Install Selected". *)
Lemma C9_export_import_round_trip_witness :
  fst (import_and_install_json "apps.json" [ClickInstall] world_exported) = Ok ()
  ∧ (∃ evs, trace (snd (import_and_install_json "apps.json" [ClickInstall] world_exported)) =
       trace world_exported ++
         [Spawn [BREW_PATH; "list"; "--cask"]; Spawn [BREW_PATH; "list"];
          DialogExec "Confirm Apps to Install"
            (import_item (list_to_set ["firefox"] ∪ list_to_set ["wget"])
               <$> sorted (list_to_set ["firefox"] ∪ list_to_set ["wget"]))] ++ evs
     ∧ Forall idle_event evs)
  ∧ (∀ x, x ∈ sorted (list_to_set ["firefox"] ∪ list_to_set ["wget"])
          ↔ x ∈ ["firefox"] ∨ x ∈ ["wget"])
  ∧ Forall (λ item, is_enabled item = false ∧ is_checked item = false
                    ∧ ∃ app, (app ∈ ["firefox"] ∨ app ∈ ["wget"])
                             ∧ text item = app +:+ " (already installed)")
      (import_item (list_to_set ["firefox"] ∪ list_to_set ["wget"])
         <$> sorted (list_to_set ["firefox"] ∪ list_to_set ["wget"]))
  ∧ selected_names
      (import_item (list_to_set ["firefox"] ∪ list_to_set ["wget"])
         <$> sorted (list_to_set ["firefox"] ∪ list_to_set ["wget"])) = []
  ∧ spawned (snd (import_and_install_json "apps.json" [ClickInstall] world_exported))
      = S (S (spawned world_exported))
  ∧ self (snd (import_and_install_json "apps.json" [ClickInstall] world_exported))
      = self world_exported.
Proof.
  apply (C9_export_import_round_trip "apps.json" [ClickInstall] ["firefox"] ["wget"]
           world_two_installed world_exported).
  - discriminate.
  - reflexivity.
  - reflexivity.
  - reflexivity.
  - reflexivity.
Defined.

(** The round trip, run: the dialog of the witness holds the two names,
    both locked. *)
Example round_trip_dialog :
  trace (snd (import_and_install_json "apps.json" [ClickInstall] world_exported)) =
    [Spawn [BREW_PATH; "list"; "--cask"]; Spawn [BREW_PATH; "list"];
     FileWritten "apps.json" (export_data ["firefox"] ["wget"]);
     Information "Export" "Installed apps exported to JSON.";
     Spawn [BREW_PATH; "list"; "--cask"]; Spawn [BREW_PATH; "list"];
     DialogExec "Confirm Apps to Install"
       [mkItem "firefox (already installed)" 21 0; mkItem "wget (already installed)" 21 0];
     Information "Install" "No apps selected."].
Proof. vm_compute. reflexivity. Qed.

(** * Further properties *)

(** ** Worlds after launches *)

Lemma launched_all_snoc argvs argv w :
  launched_all (argvs ++ [argv]) w = launched argv (launched_all argvs w).
Proof. unfold launched_all. by rewrite foldl_app. Qed.

Lemma launched_all_cons argv argvs w :
  launched_all (argv :: argvs) w = launched_all argvs (launched argv w).
Proof. reflexivity. Qed.

Lemma launched_all_fields argvs : ∀ w,
  brew (launched_all argvs w) = brew w
  ∧ spawned (launched_all argvs w) = (spawned w + length argvs)%nat
  ∧ files (launched_all argvs w) = files w
  ∧ trace (launched_all argvs w) = trace w ++ (Spawn <$> argvs)
  ∧ self (launched_all argvs w) = self w.
Proof.
  induction argvs as [|argv argvs IH]; intros w.
  - simpl. by rewrite Nat.add_0_r, app_nil_r.
  - rewrite launched_all_cons. destruct (IH (launched argv w)) as (-> & -> & -> & -> & ->).
    simpl. rewrite <- app_assoc. repeat split; try done; lia.
Qed.

(** ** The worker *)

Lemma batch_result_launched argv w : ∀ apps n,
  batch_result (launched argv w) n apps = batch_result w n apps.
Proof.
  induction apps as [|a apps IH]; intros n; [done|]. simpl. by rewrite IH.
Qed.

(** The loop of the worker, when every launch starts a process. *)
Lemma BrewInstaller_run_loop_world apps : ∀ w successes failures,
  batch_launches w (spawned w) apps →
  BrewInstaller_run_loop apps successes failures w =
    (Ok (successes ++ (batch_result w (spawned w) apps).1,
         failures ++ (batch_result w (spawned w) apps).2),
     launched_all (install_argv <$> apps) w).
Proof.
  induction apps as [|app rest IH]; intros w successes failures Hl.
  - simpl. by rewrite !app_nil_r.
  - apply batch_launches_cons in Hl as [(rc & Hb) Hrest].
    cbn [BrewInstaller_run_loop]. unfold mbind, Py_bind at 1.
    rewrite (install_step_exit _ _ _ _ _ Hb). rewrite fmap_cons, launched_all_cons.
    cbn [batch_result]. unfold install_ok at 1 2. rewrite Hb.
    pose proof (IH (launched (install_argv app) w)) as IH'.
    rewrite batch_result_launched in IH'. simpl spawned in IH'.
    destruct (batch_result w (S (spawned w)) rest) as [s f].
    destruct (rc =? 0); simpl.
    + rewrite IH' by exact Hrest. simpl. by rewrite <- app_assoc.
    + rewrite IH' by exact Hrest. simpl. by rewrite <- app_assoc.
Qed.

Lemma batch_result_sublist w apps : ∀ n,
  (batch_result w n apps).1 `sublist_of` apps
  ∧ (batch_result w n apps).2 `sublist_of` apps.
Proof.
  induction apps as [|app rest IH]; intros n; simpl; [done|].
  destruct (IH (S n)) as [H1 H2]. destruct (batch_result w (S n) rest) as [s f].
  destruct (install_ok w n app); simpl in *; split;
    by (apply sublist_skip || apply sublist_cons).
Qed.

(** In [world_b_fails] every launch of the batch a, b, c starts a
    process. *)
Lemma BrewInstaller_run_partition_witness :
  ∃ successes failures,
    fst (BrewInstaller_run ["a"; "b"; "c"] world_b_fails) = Ok (successes, failures)
    ∧ (successes, failures) = batch_result world_b_fails 0 ["a"; "b"; "c"]
    ∧ successes ++ failures ≡ₚ ["a"; "b"; "c"]
    ∧ (∀ x, x ∈ ["a"; "b"; "c"] ↔ x ∈ successes ∨ x ∈ failures)
    ∧ (NoDup ["a"; "b"; "c"] → ∀ x, x ∈ successes → x ∉ failures).
Proof.
  apply (BrewInstaller_run_partition ["a"; "b"; "c"] world_b_fails).
  intros i app Hi. simpl. unfold world_b_fails, fresh_world. simpl.
  destruct (decide (install_argv app = install_argv "b")); by eexists.
Defined.

(** X2.  When every [brew install] of the batch starts a process, the
    worker launches exactly one [brew install] per target, in the order of
    the batch and whatever the exit codes, then emits [finished] once;
    nothing else happens, the window is not touched, and each of the two
    lists keeps the order of the batch. *)
Theorem BrewInstaller_run_one_launch_each (apps : list string) (w : World) :
  batch_launches w (spawned w) apps →
  ∃ successes failures,
    fst (BrewInstaller_run apps w) = Ok (successes, failures)
    ∧ trace (snd (BrewInstaller_run apps w)) =
        trace w ++ (Spawn <$> ((λ app, ["brew"; "install"; app]) <$> apps))
                ++ [Finished successes failures]
    ∧ spawned (snd (BrewInstaller_run apps w)) = (spawned w + length apps)%nat
    ∧ self (snd (BrewInstaller_run apps w)) = self w
    ∧ successes `sublist_of` apps
    ∧ failures `sublist_of` apps.
Proof.
  intros Hl. unfold BrewInstaller_run, mbind, Py_bind.
  rewrite (BrewInstaller_run_loop_world apps w [] [] Hl). simpl.
  destruct (batch_result_sublist w apps (spawned w)) as [Hs Hf].
  destruct (launched_all_fields (install_argv <$> apps) w) as (_ & Hsp & _ & Htr & Hself).
  eexists _, _. split; [done|]. rewrite Htr, Hsp, Hself, length_fmap, <- app_assoc.
  done.
Qed.

Lemma BrewInstaller_run_one_launch_each_witness :
  ∃ successes failures,
    fst (BrewInstaller_run ["a"; "b"; "c"] world_b_fails) = Ok (successes, failures)
    ∧ trace (snd (BrewInstaller_run ["a"; "b"; "c"] world_b_fails)) =
        trace world_b_fails
          ++ (Spawn <$> ((λ app, ["brew"; "install"; app]) <$> ["a"; "b"; "c"]))
          ++ [Finished successes failures]
    ∧ spawned (snd (BrewInstaller_run ["a"; "b"; "c"] world_b_fails))
        = (spawned world_b_fails + length ["a"; "b"; "c"])%nat
    ∧ self (snd (BrewInstaller_run ["a"; "b"; "c"] world_b_fails)) = self world_b_fails
    ∧ successes `sublist_of` ["a"; "b"; "c"]
    ∧ failures `sublist_of` ["a"; "b"; "c"].
Proof.
  apply (BrewInstaller_run_one_launch_each ["a"; "b"; "c"] world_b_fails).
  intros i app Hi. simpl. unfold world_b_fails, fresh_world. simpl.
  destruct (decide (install_argv app = install_argv "b")); by eexists.
Defined.

Lemma batch_launches_app w n pre post :
  batch_launches w n (pre ++ post) → batch_launches w n pre.
Proof.
  intros H i app Hi. apply H. by apply lookup_app_l_Some.
Qed.

(** The loop of the worker up to a launch that cannot be started. *)
Lemma BrewInstaller_run_loop_launch_failed pre : ∀ app post msg w successes failures,
  batch_launches w (spawned w) pre →
  brew w (spawned w + length pre)%nat (install_argv app) = LaunchFailed msg →
  BrewInstaller_run_loop (pre ++ app :: post) successes failures w =
    (Raise (OSError msg), launched_all (install_argv <$> pre ++ [app]) w).
Proof.
  induction pre as [|a pre IH]; intros app post msg w successes failures Hl Hb.
  - simpl in *. rewrite Nat.add_0_r in Hb.
    unfold mbind, Py_bind. by rewrite install_step_run, Hb.
  - apply batch_launches_cons in Hl as [(rc & Ha) Hrest].
    rewrite <- !app_comm_cons.
    cbn [BrewInstaller_run_loop]. unfold mbind, Py_bind at 1.
    rewrite (install_step_exit _ _ _ _ _ Ha). simpl length in Hb.
    rewrite fmap_cons, launched_all_cons.
    destruct (rc =? 0); apply IH; try exact Hrest; simpl;
      by rewrite <- Nat.add_succ_comm in Hb.
Qed.

(** X3.  When one [brew install] of the batch cannot be started, the
    worker stops there with the [OSError]: the targets before it have been
    launched, the ones after it are never attempted, [finished] is not
    emitted and the outcomes collected so far are lost. *)
Theorem BrewInstaller_run_launch_failure_aborts
    (pre post : list string) (app msg : string) (w : World) :
  batch_launches w (spawned w) pre →
  brew w (spawned w + length pre)%nat ["brew"; "install"; app] = LaunchFailed msg →
  fst (BrewInstaller_run (pre ++ app :: post) w) = Raise (OSError msg)
  ∧ trace (snd (BrewInstaller_run (pre ++ app :: post) w)) =
      trace w ++ (Spawn <$> ((λ app, ["brew"; "install"; app]) <$> pre ++ [app]))
  ∧ spawned (snd (BrewInstaller_run (pre ++ app :: post) w))
      = (spawned w + length pre + 1)%nat
  ∧ self (snd (BrewInstaller_run (pre ++ app :: post) w)) = self w.
Proof.
  intros Hl Hb. unfold BrewInstaller_run, mbind, Py_bind.
  rewrite (BrewInstaller_run_loop_launch_failed pre app post msg w [] [] Hl Hb). simpl.
  destruct (launched_all_fields (install_argv <$> pre ++ [app]) w)
    as (_ & Hsp & _ & Htr & Hself).
  rewrite Htr, Hsp, Hself, length_fmap, length_app. simpl.
  repeat split; try done. lia.
Qed.

(** In [world_b_missing] the batch a, b, c stops at b. *)
Lemma BrewInstaller_run_launch_failure_aborts_witness :
  fst (BrewInstaller_run (["a"] ++ "b" :: ["c"]) world_b_missing)
    = Raise (OSError "No such file or directory")
  ∧ trace (snd (BrewInstaller_run (["a"] ++ "b" :: ["c"]) world_b_missing)) =
      trace world_b_missing
        ++ (Spawn <$> ((λ app, ["brew"; "install"; app]) <$> ["a"] ++ ["b"]))
  ∧ spawned (snd (BrewInstaller_run (["a"] ++ "b" :: ["c"]) world_b_missing))
      = (spawned world_b_missing + length ["a"] + 1)%nat
  ∧ self (snd (BrewInstaller_run (["a"] ++ "b" :: ["c"]) world_b_missing))
      = self world_b_missing.
Proof.
  apply (BrewInstaller_run_launch_failure_aborts ["a"] ["c"] "b"
           "No such file or directory" world_b_missing).
  - intros i app Hi. destruct i as [|i]; [|done].
    injection Hi as <-. by eexists.
  - reflexivity.
Defined.

(** ** The lines of a listing *)

Lemma no_linebreak_snoc s c :
  no_linebreak s = true → Str.is_linebreak c = false →
  no_linebreak (Str.snoc s c) = true.
Proof.
  intros Hs Hc. unfold Str.snoc. induction s as [|a s IH].
  - rewrite append_empty_l. simpl. by rewrite Hc.
  - simpl in Hs. apply andb_true_iff in Hs as [Ha Hs].
    rewrite append_cons. cbn [no_linebreak]. by rewrite Ha, IH.
Qed.

Lemma splitlines_from_no_linebreak n : ∀ s line,
  (String.length s ≤ n)%nat →
  no_linebreak line = true →
  Forall (λ l, no_linebreak l = true) (Str.splitlines_from line s).
Proof.
  induction n as [|n IH]; intros s line Hn Hline.
  - destruct s; [|simpl in Hn; lia]. simpl. destruct line; by repeat constructor.
  - destruct s as [|c s]; [simpl; destruct line; by repeat constructor|].
    simpl in Hn. cbn [Str.splitlines_from].
    destruct (Str.is_linebreak c) eqn:Hc.
    + destruct s as [|c' s']; [constructor; [done|by apply IH; [simpl; lia|]]|].
      destruct (_ && _); constructor; try done; apply IH; simpl in *; try done; lia.
    + apply IH; [lia|]. by apply no_linebreak_snoc.
Qed.

Lemma splitlines_no_linebreak s :
  Forall (λ l, no_linebreak l = true) (Str.splitlines s).
Proof. by apply (splitlines_from_no_linebreak (String.length s)). Qed.

Lemma snoc_append line c s : Str.snoc line c +:+ s = line +:+ String c s.
Proof. unfold Str.snoc. by rewrite append_assoc. Qed.

Lemma splitlines_from_name name : ∀ line rest,
  no_linebreak name = true →
  Str.splitlines_from line (name +:+ Str.nl +:+ rest)
    = (line +:+ name) :: Str.splitlines_from "" rest.
Proof.
  induction name as [|c name IH]; intros line rest Hn.
  - rewrite append_empty_l, append_empty_r. unfold Str.nl.
    rewrite append_cons, append_empty_l. destruct rest; reflexivity.
  - simpl in Hn. apply andb_true_iff in Hn as [Hc Hn].
    apply negb_true_iff in Hc. rewrite append_cons.
    cbn [Str.splitlines_from]. rewrite Hc. rewrite IH by done.
    by rewrite snoc_append.
Qed.

(** Printing names line by line and splitting the text gives the names
    back. *)
Lemma splitlines_unlines names :
  Forall (λ name, no_linebreak name = true) names →
  Str.splitlines (unlines names) = names.
Proof.
  unfold Str.splitlines. induction 1 as [|name names Hn _ IH]; [done|].
  cbn [unlines]. rewrite splitlines_from_name by done. by rewrite IH.
Qed.

(** X4.  When both listing processes exit with code zero and print one
    name per line, [get_brew_apps] returns exactly the printed names, in
    the printed order and with their repetitions, the casks first. *)
Theorem get_brew_apps_reads_printed_names (cask_apps formula_apps : list string)
    (err1 err2 : string) (w : World) :
  Forall (λ name, no_linebreak name = true) cask_apps →
  Forall (λ name, no_linebreak name = true) formula_apps →
  brew w (spawned w) [BREW_PATH; "list"; "--cask"] = Exited 0 (unlines cask_apps) err1 →
  brew w (S (spawned w)) [BREW_PATH; "list"] = Exited 0 (unlines formula_apps) err2 →
  fst (get_brew_apps w) = Ok (cask_apps, formula_apps).
Proof.
  intros Hc Hf H1 H2. rewrite (get_brew_apps_exited _ _ _ _ _ _ _ H1 H2).
  unfold lines_of_exit. simpl. by rewrite !splitlines_unlines.
Qed.

Lemma get_brew_apps_reads_printed_names_witness :
  fst (get_brew_apps world_listed) = Ok (["firefox"], ["git"; "wget"]).
Proof.
  apply (get_brew_apps_reads_printed_names ["firefox"] ["git"; "wget"] "" "" world_listed).
  - repeat constructor.
  - repeat constructor.
  - reflexivity.
  - reflexivity.
Defined.

Lemma lines_of_no_linebreak outcome names :
  lines_of outcome = Ok names → Forall (λ name, no_linebreak name = true) names.
Proof.
  unfold lines_of, lines_of_exit.
  destruct outcome as [rc out err|rc [out|] msg|msg]; try done;
    intros [= <-]; destruct (rc =? 0); done || apply splitlines_no_linebreak.
Qed.

(** X5.  No name that the search or a listing returns holds a line
    boundary: each name is a single line of the output. *)
Theorem adapter_names_are_single_lines (query : string) (w : World) :
  (∀ names, fst (search_brew_apps query w) = Ok names →
     Forall (λ name, no_linebreak name = true) names)
  ∧ (∀ cask_apps formula_apps, fst (get_brew_apps w) = Ok (cask_apps, formula_apps) →
     Forall (λ name, no_linebreak name = true) (cask_apps ++ formula_apps)).
Proof.
  split.
  - intros names. rewrite search_brew_apps_run. simpl.
    apply lines_of_no_linebreak.
  - intros cask_apps formula_apps. rewrite get_brew_apps_run.
    destruct (lines_of (brew w (spawned w) cask_argv)) as [c|e] eqn:H1; [|done].
    destruct (lines_of (brew w (S (spawned w)) formula_argv)) as [f|e] eqn:H2; [|done].
    simpl. intros [= <- <-]. apply Forall_app.
    split; eapply lines_of_no_linebreak; eassumption.
Qed.

(** ** The main list *)

Lemma installed_item_fields app :
  text (installed_item app) = app
  ∧ is_checked (installed_item app) = false
  ∧ is_enabled (installed_item app) = true
  ∧ is_checkable (installed_item app) = true.
Proof. done. Qed.

Lemma refresh_app_list_stdout w rc1 out1 rc2 out2 :
  exit_with_stdout (brew w (spawned w) cask_argv) = Some (rc1, out1) →
  exit_with_stdout (brew w (S (spawned w)) formula_argv) = Some (rc2, out2) →
  fst (refresh_app_list w) = Ok ()
  ∧ self (snd (refresh_app_list w)) =
      {| list_widget :=
           installed_item <$>
             sorted (list_to_set (lines_of_exit rc1 out1 ++ lines_of_exit rc2 out2));
         installer := installer (self w) |}
  ∧ trace (snd (refresh_app_list w)) = trace w ++ [Spawn cask_argv; Spawn formula_argv]
  ∧ spawned (snd (refresh_app_list w)) = S (S (spawned w))
  ∧ brew (snd (refresh_app_list w)) = brew w
  ∧ files (snd (refresh_app_list w)) = files w.
Proof.
  intros H1 H2. unfold refresh_app_list, mbind, Py_bind.
  set (w0 := snd (set_list_widget [] w)).
  change (set_list_widget [] w) with (Ok (), w0). cbv iota.
  rewrite (get_brew_apps_stdout w0 rc1 out1 rc2 out2 H1 H2).
  simpl. by rewrite <- app_assoc.
Qed.

Lemma refresh_app_list_exited w rc1 out1 err1 rc2 out2 err2 :
  brew w (spawned w) cask_argv = Exited rc1 out1 err1 →
  brew w (S (spawned w)) formula_argv = Exited rc2 out2 err2 →
  fst (refresh_app_list w) = Ok ()
  ∧ self (snd (refresh_app_list w)) =
      {| list_widget :=
           installed_item <$>
             sorted (list_to_set (lines_of_exit rc1 out1 ++ lines_of_exit rc2 out2));
         installer := installer (self w) |}
  ∧ trace (snd (refresh_app_list w)) = trace w ++ [Spawn cask_argv; Spawn formula_argv]
  ∧ spawned (snd (refresh_app_list w)) = S (S (spawned w))
  ∧ brew (snd (refresh_app_list w)) = brew w
  ∧ files (snd (refresh_app_list w)) = files w.
Proof. intros H1 H2. apply refresh_app_list_stdout; by rewrite ?H1, ?H2. Qed.

(** X6.  When both listing processes exit and what each prints decodes
    as text, [refresh_app_list] replaces the main list, whatever it held:
    one item per distinct name of the two listings, in strictly ascending
    order, each enabled, checkable and unchecked; a name that both
    listings print appears once.  The worker handle is kept. *)
Theorem refresh_app_list_lists_installed (w : World)
    (rc1 : Z) (out1 : string) (rc2 : Z) (out2 : string) :
  exit_with_stdout (brew w (spawned w) [BREW_PATH; "list"; "--cask"]) = Some (rc1, out1) →
  exit_with_stdout (brew w (S (spawned w)) [BREW_PATH; "list"]) = Some (rc2, out2) →
  let cask_apps := if rc1 =? 0 then Str.splitlines out1 else [] in
  let formula_apps := if rc2 =? 0 then Str.splitlines out2 else [] in
  let st := self (snd (refresh_app_list w)) in
  fst (refresh_app_list w) = Ok ()
  ∧ StronglySorted Str.lt (text <$> list_widget st)
  ∧ (∀ x, x ∈ text <$> list_widget st ↔ x ∈ cask_apps ∨ x ∈ formula_apps)
  ∧ Forall (λ item, is_checked item = false ∧ is_enabled item = true
                    ∧ is_checkable item = true) (list_widget st)
  ∧ installer st = installer (self w).
Proof.
  intros H1 H2 cask_apps formula_apps st.
  destruct (refresh_app_list_stdout w _ _ _ _ H1 H2) as (Hr & Hs & _).
  unfold st. rewrite Hs. simpl. fold cask_apps formula_apps.
  assert (Htext : text <$> (installed_item <$> sorted (list_to_set (cask_apps ++ formula_apps)))
                  = sorted (list_to_set (cask_apps ++ formula_apps))).
  { rewrite <- list_fmap_compose. apply list_fmap_id. }
  unfold lines_of_exit. fold cask_apps formula_apps. rewrite Htext.
  repeat split; try done.
  - apply sorted_strictly.
  - rewrite elem_of_sorted, elem_of_list_to_set, elem_of_app. done.
  - rewrite elem_of_sorted, elem_of_list_to_set, elem_of_app. done.
  - apply Forall_fmap, Forall_forall. intros app _. done.
Qed.

(** In [world_two_checked] the list is rebuilt from the formula listing. *)
Lemma refresh_app_list_lists_installed_witness :
  fst (refresh_app_list world_two_checked) = Ok ()
  ∧ StronglySorted Str.lt
      (text <$> list_widget (self (snd (refresh_app_list world_two_checked))))
  ∧ (∀ x, x ∈ text <$> list_widget (self (snd (refresh_app_list world_two_checked)))
          ↔ x ∈ @nil string ∨ x ∈ ["vim"; "git"])
  ∧ Forall (λ item, is_checked item = false ∧ is_enabled item = true
                    ∧ is_checkable item = true)
      (list_widget (self (snd (refresh_app_list world_two_checked))))
  ∧ installer (self (snd (refresh_app_list world_two_checked)))
      = installer (self world_two_checked).
Proof.
  exact (refresh_app_list_lists_installed world_two_checked
           0 "" 0 ("vim" +:+ Str.nl +:+ "git" +:+ Str.nl) eq_refl eq_refl).
Defined.

(** X7.  When a listing process cannot be started, [refresh_app_list]
    raises the [OSError] after it has cleared the main list: the list is
    left empty, not as it was. *)
Theorem refresh_app_list_cleared_on_launch_failure (w : World) (msg : string) :
  (brew w (spawned w) [BREW_PATH; "list"; "--cask"] = LaunchFailed msg
   ∨ ((∃ rc out err, brew w (spawned w) [BREW_PATH; "list"; "--cask"] = Exited rc out err)
      ∧ brew w (S (spawned w)) [BREW_PATH; "list"] = LaunchFailed msg)) →
  fst (refresh_app_list w) = Raise (OSError msg)
  ∧ list_widget (self (snd (refresh_app_list w))) = []
  ∧ installer (self (snd (refresh_app_list w))) = installer (self w).
Proof.
  intros H. unfold refresh_app_list, mbind, Py_bind.
  set (w0 := snd (set_list_widget [] w)).
  change (set_list_widget [] w) with (Ok (), w0). cbv iota.
  destruct H as [H1|[(rc & out & err & H1) H2]].
  - by rewrite (get_brew_apps_cask_launch_failed w0 msg H1).
  - by rewrite (get_brew_apps_formula_launch_failed w0 rc out err msg H1 H2).
Qed.

(** In [world_no_brew], with git in the list. *)
Lemma refresh_app_list_cleared_on_launch_failure_witness :
  fst (refresh_app_list (snd (set_list_widget [installed_item "git"] world_no_brew)))
    = Raise (OSError "No such file or directory")
  ∧ list_widget (self (snd (refresh_app_list
       (snd (set_list_widget [installed_item "git"] world_no_brew))))) = []
  ∧ installer (self (snd (refresh_app_list
       (snd (set_list_widget [installed_item "git"] world_no_brew)))))
    = installer (self (snd (set_list_widget [installed_item "git"] world_no_brew))).
Proof.
  apply (refresh_app_list_cleared_on_launch_failure
           (snd (set_list_widget [installed_item "git"] world_no_brew))
           "No such file or directory").
  left. reflexivity.
Defined.

(** ** Uninstall *)

Lemma uninstall_loop_world to_uninstall : ∀ errors w,
  uninstall_loop to_uninstall errors w =
    (Ok errors, launched_all (uninstall_argv <$> to_uninstall) w).
Proof.
  induction to_uninstall as [|app rest IH]; intros errors w; [done|].
  cbn [uninstall_loop]. unfold mbind at 1, Py_bind at 1, try_except.
  unfold mbind, Py_bind. rewrite uninstall_brew_app_run. simpl. apply IH.
Qed.

Lemma filter_checked_installed (names : list string) :
  List.filter is_checked (installed_item <$> names) = [].
Proof. induction names as [|a l IH]; [done|]. exact IH. Qed.

(** X8.  With no item of the main list checked, [uninstall_selected]
    only tells the user that nothing is selected: no process is started
    and the list is not refreshed. *)
Theorem uninstall_selected_nothing_checked (w : World) :
  Forall (λ item, is_checked item = false) (list_widget (self w)) →
  uninstall_selected w =
    (Ok (), snd (emit (Information "Uninstall" "No apps selected.") w)).
Proof.
  intros Hall. unfold uninstall_selected, get_self.
  unfold mbind at 1, Py_bind at 1.
  assert (Hnil : List.filter is_checked (list_widget (self w)) = []).
  { induction Hall as [|item l Hi _ IH]; [done|]. simpl. by rewrite Hi. }
  by rewrite Hnil.
Qed.

Lemma uninstall_selected_nothing_checked_witness :
  uninstall_selected world_nothing_checked =
    (Ok (), snd (emit (Information "Uninstall" "No apps selected.") world_nothing_checked)).
Proof.
  apply (uninstall_selected_nothing_checked world_nothing_checked).
  repeat constructor.
Defined.

(** X9.  With some item checked, [uninstall_selected] starts exactly one
    [brew uninstall --force] per checked item, in the order of the list
    and whatever the earlier ones did, and none for an unchecked item;
    then it shows one message box and refreshes the list, so that (when
    the two listings exit) every check mark is gone. *)
Theorem uninstall_selected_launches_checked_only (w : World)
    (rc1 : Z) (out1 err1 : string) (rc2 : Z) (out2 err2 : string) :
  let n := (spawned w + length (checked_names w))%nat in
  checked_names w ≠ [] →
  brew w n [BREW_PATH; "list"; "--cask"] = Exited rc1 out1 err1 →
  brew w (S n) [BREW_PATH; "list"] = Exited rc2 out2 err2 →
  fst (uninstall_selected w) = Ok ()
  ∧ (∃ box, trace (snd (uninstall_selected w)) =
       trace w
       ++ (Spawn <$> ((λ app, [BREW_PATH; "uninstall"; "--force"; app]) <$> checked_names w))
       ++ [box; Spawn [BREW_PATH; "list"; "--cask"]; Spawn [BREW_PATH; "list"]]
       ∧ ∃ body, box = Information "Uninstall" body)
  ∧ spawned (snd (uninstall_selected w)) = S (S n)
  ∧ checked_names (snd (uninstall_selected w)) = [].
Proof.
  intros n Hne H1 H2.
  pose proof (uninstall_selected_reports_success w Hne) as Hrun.
  fold (checked_names w) in Hrun. rewrite uninstall_loop_world in Hrun.
  destruct (launched_all_fields (uninstall_argv <$> checked_names w) w)
    as (Hb & Hsp & _ & Htr & _).
  set (w1 := snd (emit (Information "Uninstall" "Selected apps uninstalled.")
                    (snd (Ok ([] : list string),
                          launched_all (uninstall_argv <$> checked_names w) w)))) in Hrun.
  assert (Hsp1 : spawned w1 = n) by (unfold w1; simpl; by rewrite Hsp, length_fmap).
  assert (Hb1 : brew w1 = brew w) by (unfold w1; simpl; by rewrite Hb).
  rewrite <- Hb1, <- Hsp1 in H1, H2.
  destruct (refresh_app_list_exited w1 _ _ _ _ _ _ H1 H2) as (Hr & Hs & Ht & Hsp2 & _).
  rewrite Hrun. repeat split; try done.
  - exists (Information "Uninstall" "Selected apps uninstalled.").
    split; [|by eexists]. rewrite Ht. unfold w1. simpl. rewrite Htr.
    by rewrite <- !app_assoc.
  - by rewrite Hsp2, Hsp1.
  - unfold checked_names. rewrite Hs. simpl.
    by rewrite filter_checked_installed.
Qed.

(** In [world_two_checked] git and wget are checked and vim is not; the
    uninstall of git fails. *)
Lemma uninstall_selected_launches_checked_only_witness :
  fst (uninstall_selected world_two_checked) = Ok ()
  ∧ (∃ box, trace (snd (uninstall_selected world_two_checked)) =
       trace world_two_checked
       ++ (Spawn <$> ((λ app, [BREW_PATH; "uninstall"; "--force"; app])
                        <$> checked_names world_two_checked))
       ++ [box; Spawn [BREW_PATH; "list"; "--cask"]; Spawn [BREW_PATH; "list"]]
       ∧ ∃ body, box = Information "Uninstall" body)
  ∧ spawned (snd (uninstall_selected world_two_checked))
      = S (S (spawned world_two_checked + length (checked_names world_two_checked)))
  ∧ checked_names (snd (uninstall_selected world_two_checked)) = [].
Proof.
  apply (uninstall_selected_launches_checked_only world_two_checked
           0 "" "" 0 ("vim" +:+ Str.nl +:+ "git" +:+ Str.nl) "").
  - discriminate.
  - reflexivity.
  - reflexivity.
Defined.

Example uninstall_two_checked_run :
  trace (snd (uninstall_selected world_two_checked)) =
    [Spawn [BREW_PATH; "uninstall"; "--force"; "git"];
     Spawn [BREW_PATH; "uninstall"; "--force"; "wget"];
     Information "Uninstall" "Selected apps uninstalled.";
     Spawn [BREW_PATH; "list"; "--cask"]; Spawn [BREW_PATH; "list"]]
  ∧ text <$> list_widget (self (snd (uninstall_selected world_two_checked)))
    = ["git"; "vim"].
Proof. vm_compute. split; reflexivity. Qed.

(** ** Programs that keep a relation between worlds *)

Section steps_facts.
Context (R : relation World) `{!PreOrder R}.

Lemma steps_ret {A} (a : A) : steps R (mret a).
Proof. intros w. simpl. reflexivity. Qed.

Lemma steps_raise {A} (e : exn) : steps R (@raise A e).
Proof. intros w. simpl. reflexivity. Qed.

Lemma steps_pure {A} (r : result A) : steps R (λ w, (r, w)).
Proof. intros w. simpl. reflexivity. Qed.

Lemma steps_bind {A B} (m : Py A) (k : A → Py B) :
  steps R m → (∀ a, steps R (k a)) → steps R (m ≫= k).
Proof.
  intros Hm Hk w. unfold mbind, Py_bind. specialize (Hm w).
  destruct (m w) as [[a|e] w1]; simpl in *; [|done].
  transitivity w1; [exact Hm|apply Hk].
Qed.

Lemma steps_try_except {A} (body : Py A) class (handler : exn → Py A) :
  steps R body → (∀ e, steps R (handler e)) → steps R (try_except body class handler).
Proof.
  intros Hb Hh w. unfold try_except. specialize (Hb w).
  destruct (body w) as [[a|e] w1]; simpl in *; [done|].
  destruct (class e); [|done]. transitivity w1; [exact Hb|apply Hh].
Qed.

End steps_facts.

(** Goes through binds, handlers, patterns and tests; leaves the
    primitives. *)
Ltac steps :=
  repeat match goal with
    | |- steps _ (match ?x with _ => _ end) => destruct x
    | |- steps _ (_ ≫= _) => apply steps_bind; [apply _| |]
    | |- steps _ (try_except _ _ _) => apply steps_try_except; [apply _| |]
    | |- steps _ (mret _) => apply steps_ret; apply _
    | |- steps _ (raise _) => apply steps_raise; apply _
    | |- ∀ _, _ => intro
    | _ => progress cbv beta
    end.

#[local] Instance quiet_preorder argvs : PreOrder (quiet argvs).
Proof.
  split.
  - intros w. repeat split. exists []. by rewrite app_nil_r.
  - intros w1 w2 w3 (Hs1 & Hf1 & evs1 & Ht1 & He1) (Hs2 & Hf2 & evs2 & Ht2 & He2).
    split; [congruence|]. split; [congruence|].
    exists (evs1 ++ evs2). rewrite Ht2, Ht1, <- app_assoc. split; [done|].
    by apply Forall_app.
Qed.

Lemma quiet_emit argvs ev : harmless argvs ev → steps (quiet argvs) (emit ev).
Proof.
  intros Hev w. repeat split. exists [ev]. split; [done|]. by constructor.
Qed.

Lemma quiet_subprocess_call {A} argvs argv (reads : proc_outcome → result A) :
  argv ∈ argvs → steps (quiet argvs) (subprocess_call argv reads).
Proof.
  intros Hin w. repeat split. exists [Spawn argv]. split; [done|]. by constructor.
Qed.

Lemma quiet_check_output argvs argv :
  argv ∈ argvs → steps (quiet argvs) (check_output argv).
Proof. apply quiet_subprocess_call. Qed.

Lemma quiet_get_brew_apps argvs :
  cask_argv ∈ argvs → formula_argv ∈ argvs → steps (quiet argvs) get_brew_apps.
Proof.
  intros H1 H2. unfold get_brew_apps. steps; by apply quiet_check_output.
Qed.

Lemma quiet_search_brew_apps argvs query :
  search_argv query ∈ argvs → steps (quiet argvs) (search_brew_apps query).
Proof. intros H. unfold search_brew_apps. steps. by apply quiet_check_output. Qed.

Lemma load_import_world path w : snd (load_import path w) = w.
Proof.
  unfold load_import, json_load, data_get, py_set, mbind, mret,
    Py_bind, Py_ret, raise.
  destruct (files w path) as [v|msg|msg]; try done.
  destruct v; try done. simpl.
  destruct (dict_get "cask" _ _); try done; simpl;
    try (destruct (set_of_list _); try done; simpl);
    destruct (dict_get "formula" _ _); try done; simpl;
    by destruct (set_of_list _).
Qed.

Lemma quiet_load_import argvs path : steps (quiet argvs) (load_import path).
Proof. intros w. rewrite load_import_world. reflexivity. Qed.

(** A dialog in which "Install Selected" is not pressed. *)
Lemma quiet_dlg_exec argvs actions : ∀ app_list,
  ClickInstall ∉ actions → steps (quiet argvs) (dlg_exec app_list actions).
Proof.
  induction actions as [|[i| |] rest IH]; intros app_list Hno.
  - apply steps_ret, _.
  - cbn [dlg_exec]. apply IH. by apply not_elem_of_cons in Hno as [_ ?].
  - by apply not_elem_of_cons in Hno as [? _].
  - by apply quiet_emit.
Qed.

Lemma quiet_search_dlg argvs actions : ∀ result_list,
  ClickInstall ∉ actions → steps (quiet argvs) (search_dlg result_list actions).
Proof.
  induction actions as [|[i| |] rest IH]; intros result_list Hno.
  - apply steps_ret, _.
  - cbn [search_dlg]. apply IH. by apply not_elem_of_cons in Hno as [_ ?].
  - by apply not_elem_of_cons in Hno as [? _].
  - by apply quiet_emit.
Qed.

(** ** Import: what starts an install *)

(** X10.  Whatever the file holds and whatever the processes do, an
    import in which the user does not press "Install Selected" starts no
    process but the two listings, emits no worker signal, writes no file
    and leaves the window as it was. *)
Theorem import_without_install_is_quiet (path : string) (actions : list dialog_action)
    (w : World) :
  ClickInstall ∉ actions →
  let w' := snd (import_and_install_json path actions w) in
  self w' = self w
  ∧ files w' = files w
  ∧ ∃ evs, trace w' = trace w ++ evs
           ∧ Forall (harmless [[BREW_PATH; "list"; "--cask"]; [BREW_PATH; "list"]]) evs.
Proof.
  intros Hno. revert w.
  change (steps (quiet [cask_argv; formula_argv]) (import_and_install_json path actions)).
  unfold import_and_install_json, import_app_list. steps.
  - apply quiet_load_import.
  - by apply quiet_emit.
  - apply quiet_get_brew_apps; set_solver.
  - by apply quiet_emit.
  - by apply quiet_dlg_exec.
Qed.

(** The user toggles the first item and cancels. *)
Lemma import_without_install_is_quiet_witness :
  self (snd (import_and_install_json "apps.json" [Toggle 0; ClickCancel] world_scenario3))
    = self world_scenario3
  ∧ files (snd (import_and_install_json "apps.json" [Toggle 0; ClickCancel] world_scenario3))
    = files world_scenario3
  ∧ ∃ evs,
      trace (snd (import_and_install_json "apps.json" [Toggle 0; ClickCancel] world_scenario3))
        = trace world_scenario3 ++ evs
      ∧ Forall (harmless [[BREW_PATH; "list"; "--cask"]; [BREW_PATH; "list"]]) evs.
Proof.
  apply (import_without_install_is_quiet "apps.json" [Toggle 0; ClickCancel]
           world_scenario3).
  rewrite !not_elem_of_cons. repeat split; try discriminate. apply not_elem_of_nil.
Defined.

(** ** Import: files of another shape *)

Lemma set_of_list_unhashable elems x :
  x ∈ elems → unhashable x → set_of_list elems = Raise TypeError.
Proof.
  induction 1 as [x l|x y l Hin IH]; intros Hx.
  - by destruct x.
  - specialize (IH Hx). simpl. rewrite IH. by destruct y.
Qed.

Lemma py_set_not_a_set v w : not_a_set v → py_set v w = (Raise TypeError, w).
Proof.
  intros [Hv|(elems & x & -> & Hin & Hx)].
  - by destruct v.
  - simpl. by rewrite (set_of_list_unhashable elems x).
Qed.

Lemma load_import_rejects path w e :
  import_rejects (files w path) e → load_import path w = (Raise e, w).
Proof.
  unfold load_import, json_load, data_get, mbind, mret, Py_bind, Py_ret, raise.
  inversion 1 as [msg Hf|msg Hf|v Hv Hf|members Hc Hf|members cs Hcs Hfo Hf];
    subst; try done.
  - destruct v; try done. by destruct (Hv members).
  - simpl. by rewrite py_set_not_a_set.
  - destruct (field_strings_get _ _ _ Hcs) as (elems & -> & Hs).
    simpl. rewrite Hs. simpl. by rewrite py_set_not_a_set.
Qed.

(** X11.  A file that cannot be opened, a document that is not an
    object, and an object whose "cask" or "formula" field is not iterable
    or is an array holding an array or an object, are treated like a text
    that is not JSON: the import shows the "Import Error" box with the
    exception and returns; no process is started, no dialog is opened and
    nothing else changes. *)
Theorem import_wrong_shape_reported (path : string) (actions : list dialog_action)
    (e : exn) (w : World) :
  path ≠ "" →
  import_rejects (files w path) e →
  import_and_install_json path actions w =
    (Ok (), snd (emit (Critical "Import Error" ("Failed to read JSON:" +:+ Str.nl) e) w)).
Proof.
  intros Hp Hrej. destruct path as [|c path]; [done|].
  unfold import_and_install_json, try_except, mbind, mret, Py_bind, Py_ret.
  by rewrite (load_import_rejects _ _ _ Hrej).
Qed.

(** The file holds the array [[]]. *)
Lemma import_wrong_shape_reported_witness :
  import_and_install_json "apps.json" [ClickInstall] world_array_file =
    (Ok (), snd (emit (Critical "Import Error" ("Failed to read JSON:" +:+ Str.nl)
                         AttributeError) world_array_file)).
Proof.
  apply (import_wrong_shape_reported "apps.json" [ClickInstall] AttributeError
           world_array_file).
  - discriminate.
  - apply rejects_not_object. discriminate.
Defined.

Lemma set_of_list_mixed elems :
  Forall (λ x, ¬ unhashable x) elems →
  Exists scalar_not_str elems →
  set_of_list elems = Ok MixedSet.
Proof.
  intros Hh He.
  assert (Hok : ∀ l, Forall (λ x, ¬ unhashable x) l → ∃ s, set_of_list l = Ok s).
  { induction 1 as [|x l Hx _ [s IH]]; [by eexists|]. simpl. rewrite IH.
    destruct x; try (by destruct Hx); destruct s; by eexists. }
  induction He as [x l Hx|x l He IH]; apply Forall_cons in Hh as [Hx' Hl].
  - destruct (Hok l Hl) as [s Hs]. simpl. rewrite Hs. by destruct x.
  - simpl. rewrite (IH Hl). by destruct x.
Qed.

(** X12.  A number, a boolean or a null among the strings of the "cask"
    array is not caught as an import error: the file is accepted, the two
    listings run, and then a [TypeError] leaves the method; no message box
    is shown and no dialog is opened. *)
Theorem import_non_string_element_raises (path : string) (actions : list dialog_action)
    (members : list (string * json)) (elems : list json) (fs : list string) (w : World)
    (rc1 : Z) (out1 err1 : string) (rc2 : Z) (out2 err2 : string) :
  path ≠ "" →
  files w path = JsonDoc (JObject members) →
  dict_get "cask" members (JArray []) = JArray elems →
  Forall (λ x, ¬ unhashable x) elems →
  Exists scalar_not_str elems →
  field_strings members "formula" fs →
  brew w (spawned w) [BREW_PATH; "list"; "--cask"] = Exited rc1 out1 err1 →
  brew w (S (spawned w)) [BREW_PATH; "list"] = Exited rc2 out2 err2 →
  fst (import_and_install_json path actions w) = Raise TypeError
  ∧ trace (snd (import_and_install_json path actions w)) =
      trace w ++ [Spawn [BREW_PATH; "list"; "--cask"]; Spawn [BREW_PATH; "list"]]
  ∧ self (snd (import_and_install_json path actions w)) = self w.
Proof.
  intros Hp Hf Hc Hh He Hfo H1 H2. destruct path as [|c path]; [done|].
  destruct (field_strings_get _ _ _ Hfo) as (e2 & Hg2 & Hs2).
  unfold import_and_install_json, try_except, mbind, mret, Py_bind, Py_ret.
  rewrite (load_import_object _ members elems e2 MixedSet _ w Hf Hc Hg2
             (set_of_list_mixed _ Hh He) Hs2).
  rewrite (get_brew_apps_exited _ _ _ _ _ _ _ H1 H2). simpl.
  by rewrite <- app_assoc.
Qed.

(** The casks are vlc and the number 1. *)
Lemma import_non_string_element_raises_witness :
  fst (import_and_install_json "apps.json" [ClickInstall] world_number_file)
    = Raise TypeError
  ∧ trace (snd (import_and_install_json "apps.json" [ClickInstall] world_number_file)) =
      trace world_number_file
        ++ [Spawn [BREW_PATH; "list"; "--cask"]; Spawn [BREW_PATH; "list"]]
  ∧ self (snd (import_and_install_json "apps.json" [ClickInstall] world_number_file))
    = self world_number_file.
Proof.
  apply (import_non_string_element_raises "apps.json" [ClickInstall]
           [("cask", JArray [JString "vlc"; JNumber "1"])]
           [JString "vlc"; JNumber "1"] [] world_number_file 0 "" "" 0 "" "").
  - discriminate.
  - reflexivity.
  - reflexivity.
  - repeat constructor; by intros [].
  - right. by left.
  - left. split; [|done]. simpl. rewrite list_elem_of_singleton. discriminate.
  - reflexivity.
  - reflexivity.
Defined.

Lemma elem_of_chars x s :
  x ∈ chars s → String.length x = 1%nat ∧ Str.contains x s = true.
Proof.
  induction s as [|c s IH]; simpl; [by intros ?%elem_of_nil|].
  intros [->|Hin]%elem_of_cons.
  - split; [done|]. simpl. destruct (ascii_dec c c); [|done]. by destruct s.
  - destruct (IH Hin) as [Hlen Hc]. split; [done|].
    cbn [Str.contains]. rewrite Hc. apply orb_true_r.
Qed.

(** X13.  A "cask" field that is a string and not an array is accepted:
    the import reads it as the set of its characters, so every desired
    name it gives is one character of the string. *)
Theorem import_string_field_is_split (path : string) (members : list (string * json))
    (s : string) (fs : list string) (w : World) :
  files w path = JsonDoc (JObject members) →
  dict_get "cask" members (JArray []) = JString s →
  field_strings members "formula" fs →
  ∃ import_casks : gset string,
    load_import path w = (Ok (StrSet import_casks, StrSet (list_to_set fs)), w)
    ∧ (∀ x, x ∈ import_casks ↔ x ∈ chars s)
    ∧ (∀ x, x ∈ import_casks → String.length x = 1%nat ∧ Str.contains x s = true).
Proof.
  intros Hf Hc Hfo. destruct (field_strings_get _ _ _ Hfo) as (e2 & Hg2 & Hs2).
  exists (list_to_set (chars s)). split; [|split].
  - unfold load_import, json_load, data_get, py_set, mbind, mret, Py_bind, Py_ret.
    rewrite Hf, Hc. simpl. rewrite Hg2. simpl. by rewrite Hs2.
  - intros x. by rewrite elem_of_list_to_set.
  - intros x Hx. apply elem_of_chars. by apply elem_of_list_to_set in Hx.
Qed.

(** The casks are given as the string "vlc". *)
Lemma import_string_field_is_split_witness :
  ∃ import_casks : gset string,
    load_import "apps.json" world_string_field
      = (Ok (StrSet import_casks, StrSet (list_to_set [])), world_string_field)
    ∧ (∀ x, x ∈ import_casks ↔ x ∈ chars "vlc")
    ∧ (∀ x, x ∈ import_casks → String.length x = 1%nat ∧ Str.contains x "vlc" = true).
Proof.
  apply (import_string_field_is_split "apps.json" [("cask", JString "vlc")] "vlc" []
           world_string_field).
  - reflexivity.
  - reflexivity.
  - left. split; [|done]. simpl. rewrite list_elem_of_singleton. discriminate.
Defined.

Example string_field_dialog :
  text <$> (import_item ∅ <$> sorted (list_to_set (chars "vlc"))) = ["c"; "l"; "v"].
Proof. vm_compute. reflexivity. Qed.

(** ** The check boxes of a dialog *)

Lemma toggle_text_flags item :
  text (toggle item) = text item ∧ flags (toggle item) = flags item.
Proof. unfold toggle. by destruct (_ && _). Qed.

(** Clicks change check states only. *)
Lemma clicked_text_flags_from idxs : ∀ l0 l,
  Forall2 (λ a b, text b = text a ∧ flags b = flags a) l0 l →
  Forall2 (λ a b, text b = text a ∧ flags b = flags a) l0 (clicked idxs l).
Proof.
  induction idxs as [|i idxs IH]; intros l0 l Hl; [done|].
  cbn [clicked foldl]. apply IH. apply Forall2_alter_r; [done|].
  intros a b _ _ [Ht Hf]. destruct (toggle_text_flags b) as [-> ->]. done.
Qed.

Lemma clicked_text_flags idxs app_list :
  Forall2 (λ a b, text b = text a ∧ flags b = flags a) app_list (clicked idxs app_list).
Proof.
  apply clicked_text_flags_from, Forall_Forall2_diag, Forall_forall. done.
Qed.

Lemma dlg_exec_clicks idxs : ∀ app_list rest,
  dlg_exec app_list ((Toggle <$> idxs) ++ rest) = dlg_exec (clicked idxs app_list) rest.
Proof.
  induction idxs as [|i idxs IH]; intros app_list rest; [done|].
  simpl. apply IH.
Qed.

(** X14.  Whatever check boxes the user clicks in the import dialog, and
    in whatever order, every name that "Install Selected" hands to the
    worker comes from a desired name that is not installed: it is that
    name with the text " (already installed)" deleted.  An installed name
    is never installed again. *)
Theorem import_selection_excludes_installed (D I : gset string) (idxs : list nat)
    (rest : list dialog_action) :
  let app_list := import_item I <$> sorted D in
  (∀ w, dlg_exec app_list ((Toggle <$> idxs) ++ ClickInstall :: rest) w
        = (closed ← do_install (clicked idxs app_list);
           if closed : bool then mret () else dlg_exec (clicked idxs app_list) rest) w)
  ∧ ∀ name, name ∈ selected_names (clicked idxs app_list) →
      ∃ app, app ∈ D ∧ (app ∉ I) ∧ name = Str.replace " (already installed)" "" app.
Proof.
  intros app_list. split; [intros w; by rewrite dlg_exec_clicks|].
  intros name Hname. unfold selected_names in Hname.
  apply list_elem_of_fmap in Hname as (item & -> & Hitem).
  apply list_elem_of_In, filter_In in Hitem as [Hin Hsel].
  apply andb_true_iff in Hsel as [Hen _].
  apply list_elem_of_In, list_elem_of_lookup in Hin as [j Hj].
  pose proof (clicked_text_flags idxs app_list) as H2.
  destruct (Forall2_lookup_r _ _ _ _ _ H2 Hj) as (item0 & Hj0 & Ht & Hfl).
  unfold app_list in Hj0. apply list_lookup_fmap_Some in Hj0 as (app & -> & Happ).
  apply list_elem_of_lookup_2, elem_of_sorted in Happ.
  exists app. split; [done|].
  destruct (decide (app ∈ I)) as [HI|HI].
  - destruct (import_item_installed I app HI) as (_ & Hdis & _).
    unfold is_enabled in *. rewrite Hfl in Hen. congruence.
  - split; [done|]. destruct (import_item_selected I app HI) as (Htext & _).
    rewrite Ht. fold already_label. by rewrite Htext.
Qed.

Lemma selected_names_cons item app_list :
  selected_names (item :: app_list) =
    if is_enabled item && is_checked item
    then Str.replace already_label "" (text item) :: selected_names app_list
    else selected_names app_list.
Proof. unfold selected_names. simpl. by destruct (_ && _). Qed.

Lemma selected_names_fresh I (names : list string) :
  Forall (λ app, Str.contains already_label app = false) names →
  selected_names (import_item I <$> names)
    = List.filter (λ app, bool_decide (app ∉ I)) names.
Proof.
  induction 1 as [|app l Happ _ IH]; [done|].
  rewrite fmap_cons, selected_names_cons. cbn [List.filter].
  destruct (decide (app ∈ I)) as [HI|HI].
  - destruct (import_item_installed I app HI) as (_ & -> & _).
    rewrite bool_decide_eq_false_2 by (by intros ?). exact IH.
  - destruct (import_item_selected I app HI) as (Ht & -> & ->).
    rewrite bool_decide_eq_true_2 by done. cbn [andb]. rewrite Ht, IH.
    by rewrite replace_not_contains.
Qed.

(** X15.  When no desired name contains the text " (already installed)",
    the dialog opens with exactly the desired names that are not installed
    selected, in ascending order: pressing "Install Selected" at once
    hands the worker those names, unchanged. *)
Theorem import_preselects_missing_names (D I : gset string) :
  (∀ app, app ∈ D → Str.contains " (already installed)" app = false) →
  let selected := selected_names (import_item I <$> sorted D) in
  selected = List.filter (λ app, bool_decide (app ∉ I)) (sorted D)
  ∧ StronglySorted Str.lt selected
  ∧ (∀ app, app ∈ selected ↔ app ∈ D ∧ app ∉ I)
  ∧ (selected ≠ [] →
     ∀ w, installer (self (snd (do_install (import_item I <$> sorted D) w)))
          = Some selected).
Proof.
  intros Hfresh selected.
  assert (Hsel : selected = List.filter (λ app, bool_decide (app ∉ I)) (sorted D)).
  { apply selected_names_fresh, Forall_forall. intros app Happ.
    apply Hfresh. by apply elem_of_sorted. }
  assert (Hmem : ∀ app, app ∈ selected ↔ app ∈ D ∧ app ∉ I).
  { intros app. rewrite Hsel, list_elem_of_In, filter_In, <- list_elem_of_In.
    by rewrite elem_of_sorted, bool_decide_eq_true. }
  split; [exact Hsel|]. split; [|split; [exact Hmem|]].
  - rewrite Hsel. clear. pose proof (sorted_strictly D) as Hs.
    induction Hs as [|x l Hl IH Hx]; [constructor|]. simpl.
    destruct (bool_decide _); [|done]. constructor; [done|].
    apply Forall_forall. intros y Hy.
    apply list_elem_of_In, filter_In in Hy as [Hy _].
    apply list_elem_of_In in Hy. by eapply Forall_forall in Hx.
  - intros Hne w. by apply do_install_installer.
Qed.

(** Firefox is installed; firefox and vscode are desired. *)
Lemma import_preselects_missing_names_witness :
  selected_names (import_item {[ "firefox" ]} <$> sorted {[ "firefox"; "vscode" ]})
    = List.filter (λ app, bool_decide (app ∉ ({[ "firefox" ]} : gset string)))
        (sorted {[ "firefox"; "vscode" ]})
  ∧ StronglySorted Str.lt
      (selected_names (import_item {[ "firefox" ]} <$> sorted {[ "firefox"; "vscode" ]}))
  ∧ (∀ app, app ∈ selected_names
                    (import_item {[ "firefox" ]} <$> sorted {[ "firefox"; "vscode" ]})
            ↔ app ∈ ({[ "firefox"; "vscode" ]} : gset string)
              ∧ app ∉ ({[ "firefox" ]} : gset string))
  ∧ (selected_names (import_item {[ "firefox" ]} <$> sorted {[ "firefox"; "vscode" ]}) ≠ [] →
     ∀ w, installer (self (snd (do_install
            (import_item {[ "firefox" ]} <$> sorted {[ "firefox"; "vscode" ]}) w)))
          = Some (selected_names
                    (import_item {[ "firefox" ]} <$> sorted {[ "firefox"; "vscode" ]}))).
Proof.
  apply (import_preselects_missing_names {[ "firefox"; "vscode" ]} {[ "firefox" ]}).
  intros app Happ.
  apply elem_of_union in Happ as [Happ|Happ]; apply elem_of_singleton in Happ;
    subst app; reflexivity.
Defined.

(** ** Export *)


(** The listings of [world_two_installed], exported to a path that cannot
    be opened and to one that can. *)
Example export_run :
  export_installed_json "/apps.json" world_read_only
    = (Raise (OSError "Read-only file system"),
       launched formula_argv (launched cask_argv world_read_only))
  ∧ trace world_exported =
      [Spawn [BREW_PATH; "list"; "--cask"]; Spawn [BREW_PATH; "list"];
       FileWritten "apps.json" (export_data ["firefox"] ["wget"]);
       Information "Export" "Installed apps exported to JSON."].
Proof. split; vm_compute; reflexivity. Qed.

(** ** Search *)

Lemma search_dlg_clicks idxs : ∀ result_list rest,
  search_dlg result_list ((Toggle <$> idxs) ++ rest)
    = search_dlg (clicked idxs result_list) rest.
Proof.
  induction idxs as [|i idxs IH]; intros result_list rest; [done|].
  simpl. apply IH.
Qed.

Lemma clicked_nil idxs : clicked idxs [] = [].
Proof. induction idxs as [|i idxs IH]; [done|]. exact IH. Qed.

Lemma to_install_fresh (results : list string) : to_install (search_item <$> results) = [].
Proof. unfold to_install. induction results as [|a l IH]; [done|]. exact IH. Qed.

Lemma to_install_one results : ∀ i app,
  results !! i = Some app →
  to_install (alter toggle i (search_item <$> results)) = [app].
Proof.
  induction results as [|a l IH]; intros i app Hi; [done|].
  destruct i as [|i].
  - injection Hi as ->. rewrite fmap_cons. csimpl.
    change (to_install (toggle (search_item app) :: (search_item <$> l)))
      with (app :: to_install (search_item <$> l)).
    by rewrite to_install_fresh.
  - rewrite fmap_cons. csimpl.
    change (to_install (search_item a :: alter toggle i (search_item <$> l)))
      with (to_install (alter toggle i (search_item <$> l))).
    by apply IH.
Qed.

Lemma filter_sublist {A} (P : A → bool) (l : list A) : List.filter P l `sublist_of` l.
Proof.
  induction l as [|a l IH]; [done|]. simpl.
  destruct (P a); by (apply sublist_skip || apply sublist_cons).
Qed.

Lemma to_install_sublist idxs (results : list string) :
  to_install (clicked idxs (search_item <$> results)) `sublist_of` results.
Proof.
  assert (Ht : text <$> clicked idxs (search_item <$> results) = results).
  { pose proof (clicked_text_flags idxs (search_item <$> results)) as H2.
    apply Forall2_fmap_l in H2.
    assert (H3 : Forall2 (λ a b, text b = a) results (clicked idxs (search_item <$> results))).
    { eapply Forall2_impl; [exact H2|]. by intros a b [? _]. }
    clear H2. induction H3 as [|a b l k Hab _ IH]; [done|].
    rewrite fmap_cons. by rewrite Hab, IH. }
  rewrite <- Ht at 2. unfold to_install. apply fmap_sublist, filter_sublist.
Qed.

Lemma search_do_install_installer result_list w :
  to_install result_list ≠ [] →
  installer (self (snd (search_do_install result_list w))) = Some (to_install result_list).
Proof.
  intros Hsel. unfold search_do_install.
  destruct (to_install result_list) as [|n rest] eqn:E; [done|].
  apply set_installer_then. keeps.
Qed.

Lemma search_dlg_install_installer result_list w :
  to_install result_list ≠ [] →
  installer (self (snd (search_dlg result_list [ClickInstall] w)))
    = Some (to_install result_list).
Proof.
  intros Hsel. pose proof (search_do_install_installer result_list w Hsel) as Hi.
  cbn [search_dlg]. unfold mbind, Py_bind.
  destruct (search_do_install result_list w) as [[[|]|e] w1]; exact Hi.
Qed.

(** The search dialog is shown on the lines of the output, when there are
    some. *)
Lemma search_apps_shows query actions out err r results' w :
  query ≠ "" →
  brew w (spawned w) (search_argv query) = Exited 0 out err →
  Str.splitlines out = r :: results' →
  search_apps query true actions w =
    search_dlg (search_item <$> r :: results') actions
      (snd (emit (DialogExec "Search Results" (search_item <$> r :: results'))
              (launched (search_argv query) w))).
Proof.
  intros Hq Hb Hr. unfold search_apps.
  destruct (String.eqb_spec query "") as [|_]; [done|]. simpl.
  unfold mbind, Py_bind. rewrite search_brew_apps_run, Hb.
  unfold lines_of, lines_of_exit. simpl. by rewrite Hr.
Qed.

(** X17.  A search whose process exits non-zero and a search that prints
    no line end the same way, when what the process printed decodes as
    text: the user is told "No apps found.", no dialog is shown, and
    nothing else is started or changed. *)
Theorem search_failure_shown_as_no_results (query : string)
    (actions : list dialog_action) (rc : Z) (out : string) (w : World) :
  query ≠ "" →
  exit_with_stdout (brew w (spawned w) [BREW_PATH; "search"; query]) = Some (rc, out) →
  rc ≠ 0 ∨ Str.splitlines out = [] →
  search_apps query true actions w =
    (Ok (), snd (emit (Information "Search Results" "No apps found.")
                   (launched [BREW_PATH; "search"; query] w))).
Proof.
  intros Hq Hb Hnone. unfold search_apps.
  destruct (String.eqb_spec query "") as [|_]; [done|]. simpl.
  unfold mbind, Py_bind. rewrite search_brew_apps_run.
  fold (search_argv query) in Hb. rewrite (lines_of_stdout _ _ _ Hb).
  unfold lines_of_exit. destruct Hnone as [Hrc| ->].
  - by destruct (Z.eqb_spec rc 0).
  - by destruct (rc =? 0).
Qed.

Lemma search_failure_shown_as_no_results_witness :
  search_apps "vim" true [ClickInstall] world_search_fails =
    (Ok (), snd (emit (Information "Search Results" "No apps found.")
                   (launched [BREW_PATH; "search"; "vim"] world_search_fails))).
Proof.
  apply (search_failure_shown_as_no_results "vim" [ClickInstall] 1 "" world_search_fails).
  - discriminate.
  - reflexivity.
  - left. discriminate.
Defined.

(** X18.  A search in which the user does not press "Install Selected"
    starts no process but the search itself, emits no worker signal,
    writes no file and leaves the window as it was; a cancelled input
    dialog or an empty query starts nothing at all. *)
Theorem search_without_install_is_quiet (query : string) (ok : bool)
    (actions : list dialog_action) (w : World) :
  ClickInstall ∉ actions →
  let w' := snd (search_apps query ok actions w) in
  self w' = self w
  ∧ files w' = files w
  ∧ (∃ evs, trace w' = trace w ++ evs
            ∧ Forall (harmless [[BREW_PATH; "search"; query]]) evs)
  ∧ (ok = false ∨ query = "" → search_apps query ok actions w = (Ok (), w)).
Proof.
  intros Hno w'.
  assert (Hq : steps (quiet [search_argv query]) (search_apps query ok actions)).
  { unfold search_apps. steps.
    - apply quiet_search_brew_apps. set_solver.
    - by apply quiet_emit.
    - by apply quiet_emit.
    - by apply quiet_search_dlg. }
  destruct (Hq w) as (Hs & Hf & Hev). repeat split; try done.
  intros [-> | ->]; [done|]. unfold search_apps. by rewrite andb_false_r.
Qed.

(** The user checks the second result and goes back. *)
Lemma search_without_install_is_quiet_witness :
  self (snd (search_apps "vim" true [Toggle 1; ClickCancel] world_search_hits))
    = self world_search_hits
  ∧ files (snd (search_apps "vim" true [Toggle 1; ClickCancel] world_search_hits))
    = files world_search_hits
  ∧ (∃ evs, trace (snd (search_apps "vim" true [Toggle 1; ClickCancel] world_search_hits))
              = trace world_search_hits ++ evs
            ∧ Forall (harmless [[BREW_PATH; "search"; "vim"]]) evs)
  ∧ (true = false ∨ "vim" = "" →
     search_apps "vim" true [Toggle 1; ClickCancel] world_search_hits
       = (Ok (), world_search_hits)).
Proof.
  apply (search_without_install_is_quiet "vim" true [Toggle 1; ClickCancel]
           world_search_hits).
  rewrite !not_elem_of_cons. repeat split; try discriminate. apply not_elem_of_nil.
Defined.

(** X19.  In the search dialog nothing is checked to begin with, and the
    names handed to the worker are the lines of the search output that
    the user has checked, unchanged and in the order of the output: one
    click on one line selects that line alone, and whatever is clicked the
    selection is a sublist of the output. *)
Theorem search_installs_checked_lines (query : string) (idxs : list nat)
    (out err : string) (w : World) :
  let results := Str.splitlines out in
  let result_list := clicked idxs (search_item <$> results) in
  query ≠ "" →
  brew w (spawned w) [BREW_PATH; "search"; query] = Exited 0 out err →
  to_install result_list ≠ [] →
  installer (self (snd (search_apps query true ((Toggle <$> idxs) ++ [ClickInstall]) w)))
    = Some (to_install result_list)
  ∧ to_install result_list `sublist_of` results
  ∧ to_install (search_item <$> results) = []
  ∧ (∀ i app, idxs = [i] → results !! i = Some app → to_install result_list = [app]).
Proof.
  intros results result_list Hq Hb Hsel.
  split; [|split; [apply to_install_sublist|split; [apply to_install_fresh|]]].
  - destruct results as [|r results'] eqn:Er.
    { unfold result_list in Hsel. simpl in Hsel. by rewrite clicked_nil in Hsel. }
    rewrite (search_apps_shows query _ out err r results' w Hq Hb Er).
    rewrite search_dlg_clicks. by apply search_dlg_install_installer.
  - intros i app -> Hi. unfold result_list. simpl. by apply to_install_one.
Qed.

(** The search prints vim, macvim, vim; the user checks the second line. *)
Lemma search_installs_checked_lines_witness :
  installer (self (snd (search_apps "vim" true ((Toggle <$> [1%nat]) ++ [ClickInstall])
                          world_search_hits)))
    = Some (to_install (clicked [1%nat]
              (search_item <$> Str.splitlines (unlines ["vim"; "macvim"; "vim"]))))
  ∧ to_install (clicked [1%nat]
        (search_item <$> Str.splitlines (unlines ["vim"; "macvim"; "vim"])))
      `sublist_of` Str.splitlines (unlines ["vim"; "macvim"; "vim"])
  ∧ to_install (search_item <$> Str.splitlines (unlines ["vim"; "macvim"; "vim"])) = []
  ∧ (∀ i app, [1%nat] = [i] →
       Str.splitlines (unlines ["vim"; "macvim"; "vim"]) !! i = Some app →
       to_install (clicked [1%nat]
         (search_item <$> Str.splitlines (unlines ["vim"; "macvim"; "vim"]))) = [app]).
Proof.
  apply (search_installs_checked_lines "vim" [1%nat]
           (unlines ["vim"; "macvim"; "vim"]) "" world_search_hits).
  - discriminate.
  - reflexivity.
  - discriminate.
Defined.

Example search_run :
  trace (snd (search_apps "vim" true [Toggle 1; ClickInstall] world_search_hits)) =
    [Spawn [BREW_PATH; "search"; "vim"];
     DialogExec "Search Results"
       [search_item "vim"; search_item "macvim"; search_item "vim"];
     DialogTitle "Installing...";
     Spawn ["brew"; "install"; "macvim"];
     Finished ["macvim"] [];
     Information "Install" ("Installed: macvim" +:+ Str.nl);
     DialogClose;
     Spawn [BREW_PATH; "list"; "--cask"]; Spawn [BREW_PATH; "list"]].
Proof. vm_compute. reflexivity. Qed.

(** ** A batch, from the button to the refreshed list *)

Lemma on_finished_run successes failures w :
  successes ++ failures ≠ [] →
  ∃ body,
    on_finished successes failures w =
      refresh_app_list
        (snd (emit DialogClose (snd (emit (Information "Install" body) w))))
    ∧ ∃ rest, body = "Installed: " +:+ rest ∨ body = "Failed: " +:+ rest.
Proof.
  intros Hne. unfold on_finished. destruct successes as [|s ss].
  - destruct failures as [|f fs]; [done|].
    exists ("" +:+ "Failed: " +:+ Str.join ", " (f :: fs)).
    split; [reflexivity|]. eexists. right. reflexivity.
  - destruct failures as [|f fs].
    + exists ("" +:+ "Installed: " +:+ Str.join ", " (s :: ss) +:+ Str.nl).
      split; [reflexivity|]. eexists. left. reflexivity.
    + exists (("" +:+ "Installed: " +:+ Str.join ", " (s :: ss) +:+ Str.nl)
              +:+ "Failed: " +:+ Str.join ", " (f :: fs)).
      split; [reflexivity|]. eexists. left. rewrite append_empty_l.
      rewrite !append_assoc. reflexivity.
Qed.

Lemma do_install_selected app_list :
  selected_names app_list ≠ [] →
  do_install app_list =
    (emit (DialogTitle "Installing...");;
     set_installer (selected_names app_list);;
     installer_start (selected_names app_list);;
     mret true).
Proof. intros Hne. unfold do_install. by destruct (selected_names app_list). Qed.

(** X20.  A batch started from the import dialog, when every
    [brew install] starts a process and the listings exit: the dialog is
    retitled, each selected name is installed once and in order, the
    worker signals once, one message box names the outcome (it is never
    the fallback text "Done."), the dialog is closed, and the main list is
    rebuilt from two fresh listings, whatever the exit codes of the
    installs. *)
Theorem do_install_completes (app_list : list QListWidgetItem) (w : World)
    (rc1 : Z) (out1 err1 : string) (rc2 : Z) (out2 err2 : string) :
  let selected := selected_names app_list in
  let n := (spawned w + length selected)%nat in
  selected ≠ [] →
  batch_launches w (spawned w) selected →
  brew w n [BREW_PATH; "list"; "--cask"] = Exited rc1 out1 err1 →
  brew w (S n) [BREW_PATH; "list"] = Exited rc2 out2 err2 →
  ∃ successes failures body,
    fst (do_install app_list w) = Ok true
    ∧ successes ++ failures ≡ₚ selected
    ∧ trace (snd (do_install app_list w)) =
        trace w
        ++ [DialogTitle "Installing..."]
        ++ (Spawn <$> ((λ app, ["brew"; "install"; app]) <$> selected))
        ++ [Finished successes failures; Information "Install" body; DialogClose;
            Spawn [BREW_PATH; "list"; "--cask"]; Spawn [BREW_PATH; "list"]]
    ∧ (∃ rest, body = "Installed: " +:+ rest ∨ body = "Failed: " +:+ rest)
    ∧ installer (self (snd (do_install app_list w))) = Some selected
    ∧ text <$> list_widget (self (snd (do_install app_list w))) =
        sorted (list_to_set ((if rc1 =? 0 then Str.splitlines out1 else [])
                             ++ (if rc2 =? 0 then Str.splitlines out2 else []))).
Proof.
  intros selected n Hne Hl H1 H2. rewrite (do_install_selected _ Hne).
  fold selected. subst n. generalize dependent selected. intros selected Hne Hl H1 H2.
  set (n := (spawned w + length selected)%nat) in *.
  set (w2 := snd (set_installer selected (snd (emit (DialogTitle "Installing...") w)))).
  assert (Hw2 : brew w2 = brew w ∧ spawned w2 = spawned w) by done.
  destruct Hw2 as [Hb2 Hsp2].
  assert (Hl2 : batch_launches w2 (spawned w2) selected).
  { intros i app Hi. rewrite Hb2, Hsp2. by apply Hl. }
  pose proof (BrewInstaller_run_loop_world selected w2 [] [] Hl2) as Hloop.
  pose proof (batch_result_Permutation w2 selected (spawned w2)) as Hperm.
  destruct (batch_result w2 (spawned w2) selected) as [s f]. simpl in Hloop, Hperm.
  destruct (launched_all_fields (install_argv <$> selected) w2)
    as (Hb3 & Hsp3 & _ & Htr3 & Hself3).
  set (w3 := launched_all (install_argv <$> selected) w2) in *.
  set (w4 := snd (emit (Finished s f) w3)).
  assert (Hsf : s ++ f ≠ []).
  { intros Hnil. rewrite Hnil in Hperm. apply Permutation_nil_l in Hperm. congruence. }
  destruct (on_finished_run s f w4 Hsf) as (body & Hfin & Hbody).
  set (w5 := snd (emit DialogClose (snd (emit (Information "Install" body) w4)))) in Hfin.
  assert (Hb5 : brew w5 = brew w) by (unfold w5, w4; simpl; by rewrite Hb3).
  assert (Hsp5 : spawned w5 = n).
  { unfold w5, w4. simpl. rewrite Hsp3, length_fmap, Hsp2. done. }
  rewrite <- Hb5, <- Hsp5 in H1, H2.
  destruct (refresh_app_list_exited w5 _ _ _ _ _ _ H1 H2) as (Hr & Hs & Ht & _).
  assert (Hrun : (emit (DialogTitle "Installing...");; set_installer selected;;
                  installer_start selected;; mret true) w
                 = (Ok true, snd (refresh_app_list w5))).
  { unfold mbind at 1 2, Py_bind at 1 2.
    change (emit (DialogTitle "Installing...") w)
      with (Ok (), snd (emit (DialogTitle "Installing...") w)). cbv iota.
    change (set_installer selected (snd (emit (DialogTitle "Installing...") w)))
      with (Ok (), w2). cbv iota.
    unfold mbind, Py_bind, installer_start, BrewInstaller_run.
    unfold mbind, Py_bind. rewrite Hloop.
    change (emit (Finished s f) w3) with (Ok (), w4). cbv iota beta.
    unfold mret, Py_ret. cbv iota beta.
    rewrite Hfin. destruct (refresh_app_list w5) as [r w6]. simpl in Hr. by subst r. }
  rewrite Hrun. exists s, f, body. simpl.
  split; [done|]. split; [done|]. split; [|split; [done|split]].
  - rewrite Ht. unfold w5, w4. simpl. rewrite Htr3. unfold w2. simpl.
    by rewrite <- !app_assoc.
  - rewrite Hs. simpl. unfold w5, w4. simpl. by rewrite Hself3.
  - rewrite Hs. simpl. rewrite <- list_fmap_compose. unfold lines_of_exit.
    apply list_fmap_id.
Qed.

(** Of a and b, both selected, the install of a fails. *)
Lemma do_install_completes_witness :
  ∃ successes failures body,
    fst (do_install (import_item ∅ <$> ["a"; "b"]) world_install_two) = Ok true
    ∧ successes ++ failures ≡ₚ selected_names (import_item ∅ <$> ["a"; "b"])
    ∧ trace (snd (do_install (import_item ∅ <$> ["a"; "b"]) world_install_two)) =
        trace world_install_two
        ++ [DialogTitle "Installing..."]
        ++ (Spawn <$> ((λ app, ["brew"; "install"; app])
                         <$> selected_names (import_item ∅ <$> ["a"; "b"])))
        ++ [Finished successes failures; Information "Install" body; DialogClose;
            Spawn [BREW_PATH; "list"; "--cask"]; Spawn [BREW_PATH; "list"]]
    ∧ (∃ rest, body = "Installed: " +:+ rest ∨ body = "Failed: " +:+ rest)
    ∧ installer (self (snd (do_install (import_item ∅ <$> ["a"; "b"]) world_install_two)))
        = Some (selected_names (import_item ∅ <$> ["a"; "b"]))
    ∧ text <$> list_widget
        (self (snd (do_install (import_item ∅ <$> ["a"; "b"]) world_install_two))) =
        sorted (list_to_set ((if 0 =? 0 then Str.splitlines "" else [])
                             ++ (if 0 =? 0 then Str.splitlines (unlines ["b"]) else []))).
Proof.
  apply (do_install_completes (import_item ∅ <$> ["a"; "b"]) world_install_two
           0 "" "" 0 (unlines ["b"]) "").
  - discriminate.
  - intros i app Hi. simpl. unfold world_install_two, fresh_world. simpl.
    destruct (decide (install_argv app = install_argv "a")); [by eexists|].
    destruct (decide (install_argv app = formula_argv)); by eexists.
  - reflexivity.
  - reflexivity.
Defined.

Example install_two_run :
  trace (snd (do_install (import_item ∅ <$> ["a"; "b"]) world_install_two)) =
    [DialogTitle "Installing...";
     Spawn ["brew"; "install"; "a"]; Spawn ["brew"; "install"; "b"];
     Finished ["b"] ["a"];
     Information "Install" ("Installed: b" +:+ Str.nl +:+ "Failed: a");
     DialogClose;
     Spawn [BREW_PATH; "list"; "--cask"]; Spawn [BREW_PATH; "list"]].
Proof. vm_compute. reflexivity. Qed.

(** ** The worker cannot be started *)

(** X23.  A batch started from a dialog, when one [brew install] cannot
    be started: the [OSError] ends the worker thread and does not come
    back to [do_install], which returns as after any start.  The targets
    before the failed one have been launched, the later ones are not;
    the signal is never emitted, so [on_finished] does not run: its
    message box is not shown, the dialog is not closed, the main list is
    not refreshed.  The buttons stay disabled, so no later click starts
    anything. *)
Theorem do_install_worker_launch_failure (app_list : list QListWidgetItem)
    (pre post : list string) (app msg : string) (w : World) :
  selected_names app_list = pre ++ app :: post →
  batch_launches w (spawned w) pre →
  brew w (spawned w + length pre)%nat ["brew"; "install"; app] = LaunchFailed msg →
  let w' := snd (do_install app_list w) in
  fst (do_install app_list w) = Ok true
  ∧ trace w' =
      trace w
      ++ [DialogTitle "Installing..."]
      ++ (Spawn <$> ((λ app, ["brew"; "install"; app]) <$> pre ++ [app]))
      ++ [WorkerRaised (OSError msg)]
  ∧ list_widget (self w') = list_widget (self w)
  ∧ installer (self w') = Some (selected_names app_list)
  ∧ (∀ rest, dlg_exec app_list (ClickInstall :: rest) w = (Ok (), w')).
Proof.
  intros Hsel Hl Hb w'.
  assert (Hne : selected_names app_list ≠ []) by (rewrite Hsel; by destruct pre).
  assert (Hrun : do_install app_list w =
            (Ok true,
             snd (emit (WorkerRaised (OSError msg))
                    (launched_all (install_argv <$> pre ++ [app])
                       (snd (set_installer (selected_names app_list)
                               (snd (emit (DialogTitle "Installing...") w)))))))).
  { rewrite (do_install_selected _ Hne). rewrite Hsel.
    set (w2 := snd (set_installer (pre ++ app :: post)
                      (snd (emit (DialogTitle "Installing...") w)))).
    assert (Hl2 : batch_launches w2 (spawned w2) pre) by exact Hl.
    assert (Hb2 : brew w2 (spawned w2 + length pre)%nat (install_argv app) = LaunchFailed msg)
      by exact Hb.
    pose proof (BrewInstaller_run_loop_launch_failed pre app post msg w2 [] [] Hl2 Hb2)
      as Hloop.
    unfold mbind at 1 2, Py_bind at 1 2.
    change (emit (DialogTitle "Installing...") w)
      with (Ok (), snd (emit (DialogTitle "Installing...") w)). cbv iota.
    change (set_installer (pre ++ app :: post) (snd (emit (DialogTitle "Installing...") w)))
      with (Ok (), w2). cbv iota.
    unfold mbind, Py_bind, installer_start, BrewInstaller_run.
    unfold mbind, Py_bind. rewrite Hloop. reflexivity. }
  unfold w'. rewrite Hrun.
  set (w2 := snd (set_installer (selected_names app_list)
                    (snd (emit (DialogTitle "Installing...") w)))).
  destruct (launched_all_fields (install_argv <$> pre ++ [app]) w2)
    as (_ & _ & _ & Htr & Hself).
  unfold emit at 1 2 3. cbn [fst snd trace self]. rewrite Htr, Hself.
  split; [done|]. split; [|split; [|split]].
  - unfold w2. simpl. by rewrite <- !app_assoc.
  - by unfold w2.
  - unfold emit. cbn [snd self]. rewrite Hself. by unfold w2.
  - intros rest. cbn [dlg_exec]. unfold mbind, Py_bind. by rewrite Hrun.
Qed.

(** Of a and b, both selected, the install of b cannot be started; the
    user presses "Install Selected" twice. *)
Lemma do_install_worker_launch_failure_witness :
  fst (do_install (import_item ∅ <$> ["a"; "b"]) world_b_missing) = Ok true
  ∧ trace (snd (do_install (import_item ∅ <$> ["a"; "b"]) world_b_missing)) =
      trace world_b_missing
      ++ [DialogTitle "Installing..."]
      ++ (Spawn <$> ((λ app, ["brew"; "install"; app]) <$> ["a"] ++ ["b"]))
      ++ [WorkerRaised (OSError "No such file or directory")]
  ∧ list_widget (self (snd (do_install (import_item ∅ <$> ["a"; "b"]) world_b_missing)))
    = list_widget (self world_b_missing)
  ∧ installer (self (snd (do_install (import_item ∅ <$> ["a"; "b"]) world_b_missing)))
    = Some (selected_names (import_item ∅ <$> ["a"; "b"]))
  ∧ (∀ rest, dlg_exec (import_item ∅ <$> ["a"; "b"]) (ClickInstall :: rest) world_b_missing
             = (Ok (), snd (do_install (import_item ∅ <$> ["a"; "b"]) world_b_missing))).
Proof.
  apply (do_install_worker_launch_failure (import_item ∅ <$> ["a"; "b"]) ["a"] [] "b"
           "No such file or directory" world_b_missing).
  - reflexivity.
  - intros i app Hi. destruct i as [|i]; [|done].
    injection Hi as <-. by eexists.
  - reflexivity.
Defined.

(** ** Output that does not decode *)

(** X21.  When what a listing prints does not decode as text,
    [get_brew_apps] raises the [UnicodeDecodeError] whatever the exit code
    of that process, zero or not; [refresh_app_list] raises it after it
    has cleared the main list, which is left empty. *)
Theorem refresh_app_list_cleared_on_undecodable_listing (w : World) (rc : Z) (msg : string) :
  (brew w (spawned w) [BREW_PATH; "list"; "--cask"] = Undecodable rc None msg
   ∨ ((∃ rc1 out1,
         exit_with_stdout (brew w (spawned w) [BREW_PATH; "list"; "--cask"]) = Some (rc1, out1))
      ∧ brew w (S (spawned w)) [BREW_PATH; "list"] = Undecodable rc None msg)) →
  fst (get_brew_apps w) = Raise (UnicodeDecodeError msg)
  ∧ fst (refresh_app_list w) = Raise (UnicodeDecodeError msg)
  ∧ list_widget (self (snd (refresh_app_list w))) = []
  ∧ installer (self (snd (refresh_app_list w))) = installer (self w).
Proof.
  intros H.
  assert (Hg : ∀ w0, brew w0 = brew w → spawned w0 = spawned w →
            get_brew_apps w0 =
              (Raise (UnicodeDecodeError msg), snd (get_brew_apps w0))
            ∧ self (snd (get_brew_apps w0)) = self w0).
  { intros w0 Hb Hs. rewrite get_brew_apps_run, Hb, Hs.
    fold cask_argv formula_argv in H.
    destruct H as [H1|[(rc1 & out1 & H1) H2]].
    - by rewrite H1.
    - by rewrite (lines_of_stdout _ _ _ H1), H2. }
  split; [by destruct (Hg w eq_refl eq_refl) as [-> _]|].
  unfold refresh_app_list, mbind, Py_bind.
  set (w0 := snd (set_list_widget [] w)).
  change (set_list_widget [] w) with (Ok (), w0). cbv iota.
  destruct (Hg w0 eq_refl eq_refl) as [Hr Hs]. rewrite Hr. simpl. by rewrite Hs.
Qed.

(** In [world_cask_undecodable], with git in the list. *)
Lemma refresh_app_list_cleared_on_undecodable_listing_witness :
  fst (get_brew_apps (snd (set_list_widget [installed_item "git"] world_cask_undecodable)))
    = Raise (UnicodeDecodeError
               "'utf-8' codec can't decode byte 0xff in position 0: invalid start byte")
  ∧ fst (refresh_app_list (snd (set_list_widget [installed_item "git"] world_cask_undecodable)))
    = Raise (UnicodeDecodeError
               "'utf-8' codec can't decode byte 0xff in position 0: invalid start byte")
  ∧ list_widget (self (snd (refresh_app_list
       (snd (set_list_widget [installed_item "git"] world_cask_undecodable))))) = []
  ∧ installer (self (snd (refresh_app_list
       (snd (set_list_widget [installed_item "git"] world_cask_undecodable)))))
    = installer (self (snd (set_list_widget [installed_item "git"] world_cask_undecodable))).
Proof.
  apply (refresh_app_list_cleared_on_undecodable_listing
           (snd (set_list_widget [installed_item "git"] world_cask_undecodable)) 1
           "'utf-8' codec can't decode byte 0xff in position 0: invalid start byte").
  left. reflexivity.
Defined.

(** X22.  When what the search prints does not decode as text,
    [search_apps] raises the [UnicodeDecodeError] whatever the exit code:
    the user is told nothing, not even "No apps found.", and no dialog is
    shown. *)
Theorem search_undecodable_output_raises (query : string) (actions : list dialog_action)
    (rc : Z) (msg : string) (w : World) :
  query ≠ "" →
  brew w (spawned w) [BREW_PATH; "search"; query] = Undecodable rc None msg →
  search_apps query true actions w =
    (Raise (UnicodeDecodeError msg), launched [BREW_PATH; "search"; query] w).
Proof.
  intros Hq Hb. unfold search_apps.
  destruct (String.eqb_spec query "") as [|_]; [done|]. simpl.
  unfold mbind, Py_bind. rewrite search_brew_apps_run.
  fold (search_argv query) in Hb. by rewrite Hb.
Qed.

Lemma search_undecodable_output_raises_witness :
  search_apps "vim" true [ClickInstall] world_search_undecodable =
    (Raise (UnicodeDecodeError
              "'utf-8' codec can't decode byte 0xff in position 0: invalid start byte"),
     launched [BREW_PATH; "search"; "vim"] world_search_undecodable).
Proof.
  apply (search_undecodable_output_raises "vim" [ClickInstall] 0
           "'utf-8' codec can't decode byte 0xff in position 0: invalid start byte"
           world_search_undecodable).
  - discriminate.
  - reflexivity.
Defined.

(** ** Programs only add to the trace *)

#[local] Instance extends_preorder : PreOrder extends.
Proof.
  split.
  - intros w. exists []. by rewrite app_nil_r.
  - intros w1 w2 w3 [evs1 H1] [evs2 H2]. exists (evs1 ++ evs2).
    by rewrite H2, H1, <- app_assoc.
Qed.

Lemma extends_same {A} (m : Py A) : (∀ w, trace (snd (m w)) = trace w) → steps extends m.
Proof. intros H w. exists []. by rewrite H, app_nil_r. Qed.

Lemma extends_emit ev : steps extends (emit ev).
Proof. intros w. by exists [ev]. Qed.

Lemma extends_subprocess_call {A} argv (reads : proc_outcome → result A) :
  steps extends (subprocess_call argv reads).
Proof. intros w. by exists [Spawn argv]. Qed.

Lemma extends_set_list_widget items : steps extends (set_list_widget items).
Proof. by apply extends_same. Qed.

Lemma extends_set_installer apps : steps extends (set_installer apps).
Proof. by apply extends_same. Qed.

Lemma extends_get_brew_apps : steps extends get_brew_apps.
Proof. unfold get_brew_apps, check_output. steps; apply extends_subprocess_call. Qed.

Lemma extends_refresh_app_list : steps extends refresh_app_list.
Proof.
  unfold refresh_app_list. steps;
    apply extends_set_list_widget || apply extends_get_brew_apps.
Qed.

Lemma extends_BrewInstaller_run_loop apps : ∀ successes failures,
  steps extends (BrewInstaller_run_loop apps successes failures).
Proof.
  induction apps as [|app rest IH]; intros successes failures; simpl.
  - apply steps_ret, _.
  - unfold install_step, check_call. steps; apply extends_subprocess_call || apply IH.
Qed.

Lemma extends_BrewInstaller_run apps : steps extends (BrewInstaller_run apps).
Proof.
  unfold BrewInstaller_run. steps;
    apply extends_BrewInstaller_run_loop || apply extends_emit.
Qed.

Lemma extends_on_finished successes failures :
  steps extends (on_finished successes failures).
Proof.
  unfold on_finished. cbv zeta. steps;
    apply extends_emit || apply extends_refresh_app_list.
Qed.

Lemma extends_installer_start apps : steps extends (installer_start apps).
Proof.
  intros w. unfold installer_start.
  pose proof (extends_BrewInstaller_run apps w) as Hrun.
  destruct (BrewInstaller_run apps w) as [[[successes failures]|e] w1]; simpl in Hrun.
  - transitivity w1; [exact Hrun|apply extends_on_finished].
  - transitivity w1; [exact Hrun|apply extends_emit].
Qed.

Lemma extends_do_install app_list : steps extends (do_install app_list).
Proof.
  unfold do_install. cbv zeta. steps;
    apply extends_emit || apply extends_set_installer || apply extends_installer_start.
Qed.

Lemma extends_dlg_exec actions : ∀ app_list, steps extends (dlg_exec app_list actions).
Proof.
  induction actions as [|[i| |] rest IH]; intros app_list; cbn [dlg_exec].
  - apply steps_ret, _.
  - apply IH.
  - steps; apply extends_do_install || apply IH.
  - apply extends_emit.
Qed.

(** ** Import: from the file to the dialog *)

(** C7.  Let the chosen file hold an object whose "cask" and "formula"
    fields, where present, are arrays of strings, and let the two listings
    return.  Then the two sets that [import_and_install_json] reads are the
    sets of those strings (a missing field gives the empty set), and the
    desired set is their union: a name is in it exactly when it is in one
    of the arrays.  The dialog that the method opens shows that set: its
    entries are, position by position, those of the sorted desired names,
    each labelled by its name (marked when installed), so a name is listed
    once however often it occurs in the file.  A member with any other
    key, anywhere in the object, changes nothing of what is read. *)
Theorem C7_desired_set_union (path : string) (actions : list dialog_action)
    (members : list (string * json)) (cs fs cask_apps formula_apps : list string)
    (w : World) :
  path ≠ "" →
  files w path = JsonDoc (JObject members) →
  field_strings members "cask" cs →
  field_strings members "formula" fs →
  fst (get_brew_apps w) = Ok (cask_apps, formula_apps) →
  ∃ (import_casks import_formulae all_imported : gset string)
    (entries : list QListWidgetItem) (evs : list event),
    load_import path w = (Ok (StrSet import_casks, StrSet import_formulae), w)
    ∧ (∀ x, x ∈ import_casks ↔ x ∈ cs)
    ∧ (∀ x, x ∈ import_formulae ↔ x ∈ fs)
    ∧ pyset_union (StrSet import_casks) (StrSet import_formulae) = StrSet all_imported
    ∧ (∀ x, x ∈ all_imported ↔ x ∈ cs ∨ x ∈ fs)
    ∧ trace (snd (import_and_install_json path actions w)) =
        trace w ++ [Spawn [BREW_PATH; "list"; "--cask"]; Spawn [BREW_PATH; "list"];
                    DialogExec "Confirm Apps to Install" entries] ++ evs
    ∧ Forall2
        (λ id entry,
           text entry =
             id +:+ (if bool_decide (id ∈ cask_apps ∨ id ∈ formula_apps)
                     then " (already installed)" else ""))
        (sorted all_imported) entries
    ∧ NoDup (sorted all_imported)
    ∧ (∀ x, x ∈ sorted all_imported ↔ x ∈ cs ∨ x ∈ fs)
    ∧ (∀ (k : string) (v : json) (m1 m2 : list (string * json)) (w' : World),
         members = m1 ++ m2 → k ≠ "cask" → k ≠ "formula" →
         files w' path = JsonDoc (JObject (m1 ++ (k, v) :: m2)) →
         fst (load_import path w') = Ok (StrSet import_casks, StrSet import_formulae)).
Proof.
  intros Hp Hf Hc Hfo Hg.
  destruct (field_strings_get _ _ _ Hc) as (e1 & Hg1 & Hs1).
  destruct (field_strings_get _ _ _ Hfo) as (e2 & Hg2 & Hs2).
  assert (Hload : load_import path w
                  = (Ok (StrSet (list_to_set cs), StrSet (list_to_set fs)), w))
    by (by apply load_import_object with members e1 e2).
  set (I := (list_to_set cask_apps ∪ list_to_set formula_apps : gset string)).
  set (D := (list_to_set cs ∪ list_to_set fs : gset string)).
  set (entries := import_item I <$> sorted D).
  pose proof (import_and_install_json_opens path actions w _ _ cask_apps formula_apps
                Hp Hload Hg) as Hrun.
  cbv zeta in Hrun. fold I D entries in Hrun.
  destruct (extends_dlg_exec actions entries
              (snd (emit (DialogExec "Confirm Apps to Install" entries)
                      (launched formula_argv (launched cask_argv w)))))
    as [evs Hevs].
  assert (Hmem : ∀ x, x ∈ D ↔ x ∈ cs ∨ x ∈ fs).
  { intros x. unfold D. by rewrite elem_of_union, !elem_of_list_to_set. }
  exists (list_to_set cs), (list_to_set fs), D, entries, evs.
  split; [exact Hload|]. split; [intros x; apply elem_of_list_to_set|].
  split; [intros x; apply elem_of_list_to_set|]. split; [done|].
  split; [exact Hmem|]. split; [|split; [|split; [|split]]].
  - rewrite Hrun, Hevs. simpl. by rewrite <- !app_assoc.
  - apply Forall2_fmap_r, Forall_Forall2_diag, Forall_forall. intros app _.
    unfold compose. cbv beta. rewrite import_item_text.
    rewrite (bool_decide_ext (app ∈ I) (app ∈ cask_apps ∨ app ∈ formula_apps)); [done|].
    unfold I. by rewrite elem_of_union, !elem_of_list_to_set.
  - apply NoDup_sorted.
  - intros x. rewrite elem_of_sorted. apply Hmem.
  - intros k v m1 m2 w' -> Hk1 Hk2 Hf'.
    erewrite load_import_object; [done|exact Hf'| | |exact Hs1|exact Hs2].
    + by rewrite dict_get_other.
    + by rewrite dict_get_other.
Qed.

(** Scenario 3 is an instance: the cask array is empty and wget occurs
    twice among the formulae; nothing is installed, and the user presses
    "Cancel". *)
Lemma C7_desired_set_union_witness :
  ∃ (import_casks import_formulae all_imported : gset string)
    (entries : list QListWidgetItem) (evs : list event),
    load_import "apps.json" world_scenario3
      = (Ok (StrSet import_casks, StrSet import_formulae), world_scenario3)
    ∧ (∀ x, x ∈ import_casks ↔ x ∈ @nil string)
    ∧ (∀ x, x ∈ import_formulae ↔ x ∈ ["wget"; "wget"])
    ∧ pyset_union (StrSet import_casks) (StrSet import_formulae) = StrSet all_imported
    ∧ (∀ x, x ∈ all_imported ↔ x ∈ @nil string ∨ x ∈ ["wget"; "wget"])
    ∧ trace (snd (import_and_install_json "apps.json" [ClickCancel] world_scenario3)) =
        trace world_scenario3
          ++ [Spawn [BREW_PATH; "list"; "--cask"]; Spawn [BREW_PATH; "list"];
              DialogExec "Confirm Apps to Install" entries] ++ evs
    ∧ Forall2
        (λ id entry,
           text entry =
             id +:+ (if bool_decide (id ∈ @nil string ∨ id ∈ @nil string)
                     then " (already installed)" else ""))
        (sorted all_imported) entries
    ∧ NoDup (sorted all_imported)
    ∧ (∀ x, x ∈ sorted all_imported ↔ x ∈ @nil string ∨ x ∈ ["wget"; "wget"])
    ∧ (∀ (k : string) (v : json) (m1 m2 : list (string * json)) (w' : World),
         scenario3_members = m1 ++ m2 → k ≠ "cask" → k ≠ "formula" →
         files w' "apps.json" = JsonDoc (JObject (m1 ++ (k, v) :: m2)) →
         fst (load_import "apps.json" w') = Ok (StrSet import_casks, StrSet import_formulae)).
Proof.
  apply (C7_desired_set_union "apps.json" [ClickCancel] scenario3_members
           [] ["wget"; "wget"] [] [] world_scenario3).
  - discriminate.
  - reflexivity.
  - right. exists [], [("formula", JArray [JString "wget"; JString "wget"])].
    split; [reflexivity|]. simpl. rewrite list_elem_of_singleton. discriminate.
  - right. exists [("cask", JArray [])], []. split; [reflexivity|].
    simpl. apply not_elem_of_nil.
  - reflexivity.
Defined.

(** Scenario 3, the whole run: the dialog lists wget once. *)
Example scenario3_run :
  trace (snd (import_and_install_json "apps.json" [ClickCancel] world_scenario3)) =
    [Spawn [BREW_PATH; "list"; "--cask"]; Spawn [BREW_PATH; "list"];
     DialogExec "Confirm Apps to Install"
       [{| text := "wget"; flags := 53; checkState := Qt.Checked |}];
     DialogClose].
Proof. vm_compute. reflexivity. Qed.
